(** * gb build graph: a shallow embedding of build.go

    The development follows the layout of [build.go]:
    - [filepath]: the functions of Go's [path/filepath] that the file calls
      (Unix flavour, separator [/]);
    - the data model ([build.Package], [Package], the toolchain calls, and
      [World], what the file takes from the rest of the package);
    - the output paths of the stages ([stripext], [objdir], [Objfile],
      [Pkgfile]);
    - the stage producers ([gc_compile], [asm_asm], [pack_pack], [ld_link]),
      each returning the toolchain calls it makes and its error;
    - the channel cell of the [pack] target as a transition system over
      the interleavings of its goroutines;
    - the graph construction ([Compile], [buildPackage], [buildCommand],
      [Build]) in a state monad over the registry of the context and the
      log of the targets made; the recursion along the import graph is
      bounded by a fuel argument, and runs out of it only on graphs deeper
      than the fuel ([returns_buildPackage]).

    Logging ([Infof], [Debugf]) is left out. *)

From Stdlib Require Import Ascii String.
From stdpp Require Import gmap strings list.

Local Open Scope string_scope.
Local Open Scope list_scope.

(** ** Go's path/filepath, Unix flavour *)

Module filepath.

Definition Separator : ascii := "/"%char.

Definition IsPathSeparator (c : ascii) : bool := Ascii.eqb c Separator.

(** The loop of [filepath.Ext]: walk from the last byte towards the first,
    stop at a separator, return the suffix that starts at the first dot
    met.  [rpath] is the part not yet visited (reversed), [acc] the part
    already visited. *)
Fixpoint ext_scan (rpath acc : list ascii) : list ascii :=
  match rpath with
  | [] => []
  | c :: rest =>
      if IsPathSeparator c then []
      else if Ascii.eqb c "."%char then c :: acc
      else ext_scan rest (c :: acc)
  end.

Definition Ext (path : string) : string :=
  string_of_list_ascii (ext_scan (rev (list_ascii_of_string path)) []).

(** Path elements between separators. *)
Fixpoint split (path : list ascii) : list (list ascii) :=
  match path with
  | [] => [[]]
  | c :: rest =>
      if IsPathSeparator c then [] :: split rest
      else match split rest with
           | [] => [[c]]
           | w :: ws => (c :: w) :: ws
           end
  end.

Definition is_dot (e : list ascii) : bool :=
  match e with ["."%char] => true | _ => false end.

Definition is_dotdot (e : list ascii) : bool :=
  match e with ["."%char; "."%char] => true | _ => false end.

(** One round of the loop of [Clean], element by element.  [out] is the
    output written so far, last element first. *)
Definition clean_step (rooted : bool) (out : list (list ascii))
    (e : list ascii) : list (list ascii) :=
  match e with
  | [] => out
  | _ =>
      if is_dot e then out
      else if is_dotdot e then
        match out with
        | top :: below =>
            if is_dotdot top then e :: out else below
        | [] => if rooted then [] else [e]
        end
      else e :: out
  end.

Fixpoint unsplit (es : list (list ascii)) : list ascii :=
  match es with
  | [] => []
  | [e] => e
  | e :: rest => e ++ Separator :: unsplit rest
  end.

Definition is_rooted (path : list ascii) : bool :=
  match path with
  | c :: _ => IsPathSeparator c
  | [] => false
  end.

Definition clean_list (path : list ascii) : list ascii :=
  let rooted := is_rooted path in
  let out := rev (fold_left (clean_step rooted) (split path) []) in
  if rooted then Separator :: unsplit out
  else match out with
       | [] => ["."%char]
       | _ => unsplit out
       end.

Definition Clean (path : string) : string :=
  string_of_list_ascii (clean_list (list_ascii_of_string path)).

(** [strings.Join(elems, "/")]. *)
Fixpoint strings_Join (elems : list string) : string :=
  match elems with
  | [] => ""
  | [e] => e
  | e :: rest => e +:+ "/" +:+ strings_Join rest
  end.

(** [filepath.Join]: leading empty elements are dropped, the rest is
    joined with the separator and cleaned; no element at all gives the
    empty string. *)
Fixpoint Join (elems : list string) : string :=
  match elems with
  | [] => ""
  | e :: rest =>
      if String.eqb e "" then Join rest else Clean (strings_Join elems)
  end.

(** The longest prefix that ends in a separator. *)
Fixpoint dir_prefix (path : list ascii) : list ascii :=
  match path with
  | [] => []
  | c :: rest =>
      if IsPathSeparator c then c :: dir_prefix rest
      else match dir_prefix rest with
           | [] => []
           | r => c :: r
           end
  end.

Definition Dir (path : string) : string :=
  string_of_list_ascii (clean_list (dir_prefix (list_ascii_of_string path))).

(** On Unix the separator is the slash already. *)
Definition FromSlash (path : string) : string := path.

End filepath.

(** ** Data model *)

(** Go's [error]: [None] is [nil]. *)
Definition error : Type := option string.

(** The fields of [go/build.Package] that build.go reads through [pkg.p]. *)
Module build.
Record Package : Type := {
  ImportPath : string;
  Name : string;
  Dir : string;
  GoFiles : list string;
  CgoFiles : list string;
  SFiles : list string;
  Imports : list string
}.
End build.

(** [*Package].  Its declaration is not in build.go; the fields are the
    ones build.go reads ([p], [Scope], [ExtraIncludes]) and the results of
    the methods it calls ([Name()], [Complete()], [isMain()], [Result()]),
    which are fixed once the package is resolved. *)
Record Package : Type := {
  p : build.Package;
  Scope : string;
  ExtraIncludes : string;
  pkg_Name : string;
  pkg_Complete : bool;
  pkg_isMain : bool;
  pkg_Result : error
}.

(** One invocation of the toolchain held by the context ([ctx.tc]). *)
Inductive TcCall : Type :=
| TcGc (includes : list string) (importpath dir objfile : string)
       (gofiles : list string) (complete : bool)
| TcAsm (dir ofile sfile : string)
| TcPack (afiles : list string)
| TcLd (includes : list string) (target afile : string).

(** What build.go takes from outside: the fields and methods of [*Context]
    ([workdir], [IncludePaths()], the toolchain [tc]), the package-level
    [stdlib] set, [resolvePackage] and [isStale], and the [Pkgfile()] of the
    targets that are declared elsewhere. *)
Class World : Type := {
  workdir : string;
  IncludePaths : list string;
  tc : TcCall -> error;
  stdlib : gset string;
  resolvePackage : string -> Package;
  isStale : Package -> bool;
  errTarget_Pkgfile : string;
  cachedPackage_Pkgfile : Package -> string;
  Install_Pkgfile : Package -> string;
  Install_run : Package -> error
}.

(** A producer returns the toolchain calls it made and its error. *)
Definition Run : Type := (list TcCall * error)%type.

Definition call `{World} (c : TcCall) : Run := ([c], tc c).

(** ** Output paths *)

Section Paths.
Context `{W : World}.

(** [path[:len(ext)]]: the first [len(ext)] bytes of [path]. *)
Definition stripext (path : string) : string :=
  let ext := filepath.Ext path in
  String.substring 0 (String.length ext) path.

Definition testobjdir (pkg : Package) : string :=
  filepath.Join
    [workdir; filepath.FromSlash (build.ImportPath (p pkg)); "_test"].

Definition objdir (pkg : Package) : string :=
  if String.eqb (Scope pkg) "test" then
    filepath.Join
      [testobjdir pkg;
       filepath.Dir (filepath.FromSlash (build.ImportPath (p pkg)))]
  else
    filepath.Join
      [workdir;
       filepath.Dir (filepath.FromSlash (build.ImportPath (p pkg)))].

Definition gc_Objfile (pkg : Package) : string :=
  filepath.Join [objdir pkg; pkg_Name pkg +:+ ".a"].

Definition gc_Pkgfile (pkg : Package) : string := gc_Objfile pkg.

Definition pack_Pkgfile (pkg : Package) : string :=
  filepath.Join [objdir pkg; pkg_Name pkg +:+ ".a"].

Definition asm_Objfile (pkg : Package) (sfile : string) : string :=
  filepath.Join
    [workdir; build.ImportPath (p pkg); stripext sfile +:+ ".6"].

(** What the name [stripext] announces: [path] without its extension. *)
Definition path_without_ext (path : string) : string :=
  String.substring 0
    (String.length path - String.length (filepath.Ext path)) path.

End Paths.

(** ** Stage producers *)

(** The view [pack.pack] has of an [ObjTarget]: [Result()] and
    [Objfile()]. *)
Record ObjTarget : Type := {
  Result : error;
  Objfile : string
}.

Section Producers.
Context `{W : World}.

(** [gc.compile]: the test scope adds the package's extra include path
    to the include paths of the context. *)
Definition gc_compile (pkg : Package) (gofiles : list string) : Run :=
  let includes := IncludePaths in
  let importpath := build.ImportPath (p pkg) in
  let includes :=
    if String.eqb (Scope pkg) "test"
    then includes ++ [ExtraIncludes pkg]
    else includes in
  call (TcGc includes importpath (build.Dir (p pkg)) (gc_Objfile pkg)
          gofiles (pkg_Complete pkg)).

Definition asm_asm (pkg : Package) (sfile : string) : Run :=
  call (TcAsm (build.Dir (p pkg)) (asm_Objfile pkg sfile)
          (filepath.Join [build.Dir (p pkg); sfile])).

(** The loop of [pack.pack]: [afiles] holds the object files of the
    inputs read so far; the value returned is what is sent on [p.c]. *)
Fixpoint pack_loop (objs : list ObjTarget) (afiles : list string) : Run :=
  match objs with
  | [] => call (TcPack afiles)
  | obj :: rest =>
      match Result obj with
      | Some err => ([], Some err)
      | None => pack_loop rest (afiles ++ [Objfile obj])
      end
  end.

Definition pack_pack (objs : list ObjTarget) : Run := pack_loop objs [].

(** [ld.link]; [afile_Pkgfile] is [l.afile.Pkgfile()].  The test scope
    adds the extra include path and the suffix [.test]. *)
Definition ld_link (pkg : Package) (afile_Pkgfile : string) : Run :=
  let target := filepath.Join [objdir pkg; build.Name (p pkg)] in
  let includes := IncludePaths in
  let '(includes, target) :=
    if String.eqb (Scope pkg) "test"
    then (includes ++ [ExtraIncludes pkg], target +:+ ".test")
    else (includes, target) in
  call (TcLd includes target afile_Pkgfile).

End Producers.

(** ** The channel cell of a [pack] target

    [Pack] makes [p.c], a channel with a buffer of one error, and starts
    one goroutine running [pack.pack], which sends once on [p.c].  A call of
    [pack.Result] receives from [p.c], sends the value back and returns
    it.  Goroutines interleave at the channel operations. *)

(** Where a call of [pack.Result] stands. *)
Inductive Caller : Type :=
| AtRecv                 (* before [err := <-p.c] *)
| AtSend (err : error)   (* before [p.c <- err] *)
| Returned (err : error).

Record Cell : Type := {
  chan : option error;      (* the buffer of [p.c]: empty or one value *)
  sent : bool;              (* [pack.pack] has done its send *)
  runs : nat;               (* how often [pack.pack] has run *)
  calls : list TcCall;      (* the toolchain calls made so far *)
  callers : list Caller
}.

(** The scheduler's choices. *)
Inductive Action : Type :=
| Produce            (* the goroutine runs [pack.pack] up to its send *)
| CallResult         (* somebody calls [p.Result()] *)
| Recv (i : nat)     (* caller [i] receives *)
| Send (i : nat).    (* caller [i] sends back and returns *)

Section PackCell.
Context `{W : World}.

(** The cell right after [Pack(pkg, deps...)]. *)
Definition Pack_cell : Cell :=
  {| chan := None; sent := false; runs := 0; calls := []; callers := [] |}.

(** One step; [None] when the action is blocked (a receive on an empty
    buffer, a send on a full one) or does not exist. *)
Definition step (objs : list ObjTarget) (a : Action) (c : Cell)
    : option Cell :=
  match a with
  | Produce =>
      if sent c then None
      else match chan c with
           | Some _ => None
           | None =>
               let r := pack_pack objs in
               Some {| chan := Some r.2; sent := true; runs := S (runs c);
                       calls := calls c ++ r.1; callers := callers c |}
           end
  | CallResult =>
      Some {| chan := chan c; sent := sent c; runs := runs c;
              calls := calls c; callers := callers c ++ [AtRecv] |}
  | Recv i =>
      match callers c !! i, chan c with
      | Some AtRecv, Some err =>
          Some {| chan := None; sent := sent c; runs := runs c;
                  calls := calls c;
                  callers := <[i := AtSend err]> (callers c) |}
      | _, _ => None
      end
  | Send i =>
      match callers c !! i, chan c with
      | Some (AtSend err), None =>
          Some {| chan := Some err; sent := sent c; runs := runs c;
                  calls := calls c;
                  callers := <[i := Returned err]> (callers c) |}
      | _, _ => None
      end
  end.

Fixpoint exec (objs : list ObjTarget) (sched : list Action) (c : Cell)
    : option Cell :=
  match sched with
  | [] => Some c
  | a :: rest =>
      match step objs a c with
      | Some c' => exec objs rest c'
      | None => None
      end
  end.

(** The body of [pack.Result] run by caller [i] without interruption:
    [err := <-p.c; p.c <- err; return err]. *)
Definition pack_Result (i : nat) : list Action := [Recv i; Send i].

(** [n] calls of [Result()] one after the other, the first one being
    caller number [i]. *)
Fixpoint sequential_calls (i n : nat) : list Action :=
  match n with
  | 0 => []
  | S m => CallResult :: pack_Result i ++ sequential_calls (S i) m
  end.

(** Callers holding the value between their receive and their send. *)
Definition holding (k : Caller) : nat :=
  match k with AtSend _ => 1 | _ => 0 end.

Definition holders (ks : list Caller) : nat :=
  foldr (fun k n => holding k + n) 0 ks.

Definition in_buffer (c : Cell) : nat :=
  match chan c with Some _ => 1 | None => 0 end.

Definition carries (v : error) (k : Caller) : Prop :=
  match k with
  | AtRecv => True
  | AtSend e | Returned e => e = v
  end.

(** The invariant of the cell: before the producer's send nothing
    circulates; after it exactly one copy of its value does, in the
    buffer or in the hands of one caller. *)
Definition cell_inv (objs : list ObjTarget) (c : Cell) : Prop :=
  if sent c then
    runs c = 1 /\ calls c = (pack_pack objs).1
    /\ in_buffer c + holders (callers c) = 1
    /\ (forall e, chan c = Some e -> e = (pack_pack objs).2)
    /\ Forall (carries (pack_pack objs).2) (callers c)
  else
    runs c = 0 /\ calls c = [] /\ chan c = None
    /\ Forall (fun k => k = AtRecv) (callers c).

End PackCell.

(** ** Targets and the registry *)

(** A target of the build graph.  [errTarget] is a plain value wrapping
    an error; the other targets are pointers in Go ([&gc], [&asm],
    [&pack], [&ld]), so each carries the number it got when it was made,
    which tells two targets with the same fields apart.  [cached] and
    [install] stand for what [cachedPackage] and [Install] return. *)
#[warnings="-register-all"]
Inductive Target : Type :=
| errTarget (err : string)
| cached (id : nat) (pkg : Package)
| gc (id : nat) (pkg : Package) (gofiles : list string) (deps : list Target)
| asm (id : nat) (pkg : Package) (sfile : string)
| pack (id : nat) (pkg : Package) (objs : list Target)
| ld (id : nat) (pkg : Package) (afile : Target)
| install (id : nat) (pkg : Package) (t : Target).

(** The targets with a [Pkgfile()] method: the dynamic check behind
    [t.(PkgTarget)]. *)
Definition PkgTarget (t : Target) : bool :=
  match t with
  | errTarget _ | cached _ _ | gc _ _ _ _ | pack _ _ _ | install _ _ _ => true
  | asm _ _ _ | ld _ _ _ => false
  end.

Definition is_gc (t : Target) : bool :=
  match t with gc _ _ _ _ => true | _ => false end.
Definition is_asm (t : Target) : bool :=
  match t with asm _ _ _ => true | _ => false end.
Definition is_pack (t : Target) : bool :=
  match t with pack _ _ _ => true | _ => false end.
Definition is_ld (t : Target) : bool :=
  match t with ld _ _ _ => true | _ => false end.

(** A Compiler-, Assembler-, Archiver- or Linker-stage. *)
Definition is_stage (t : Target) : bool :=
  is_gc t || is_asm t || is_pack t || is_ld t.

(** The mutable part of the build: the targets made so far, oldest first,
    and the registry of the context. *)
Record State : Type := {
  created : list Target;
  targets : gmap string Target
}.

Definition empty_State : State := {| created := []; targets := ∅ |}.

(** How a computation ends: with a value and the new state, with a Go
    panic (a failed type assertion, an index out of range), or with the
    recursion budget of the model used up. *)
Inductive Res (A : Type) : Type :=
| Ok (a : A) (st : State)
| Panic
| OutOfFuel.
Arguments Ok {A} a st.
Arguments Panic {A}.
Arguments OutOfFuel {A}.

Definition M (A : Type) : Type := State -> Res A.

Definition ret {A} (a : A) : M A := fun st => Ok a st.

Definition bind {A B} (m : M A) (k : A -> M B) : M B :=
  fun st =>
    match m st with
    | Ok a st' => k a st'
    | Panic => Panic
    | OutOfFuel => OutOfFuel
    end.

Notation "x <- m ;; k" := (bind m (fun x => k))
  (at level 100, m at next level, right associativity).

Definition panic {A} : M A := fun _ => Panic.
Definition out_of_fuel {A} : M A := fun _ => OutOfFuel.

(** Making a pointer target: it gets the next number and is logged. *)
Definition alloc (mk : nat -> Target) : M Target :=
  fun st =>
    let t := mk (length (created st)) in
    Ok t {| created := created st ++ [t]; targets := targets st |}.

(** [t.(PkgTarget)]. *)
Definition assert_PkgTarget (t : Target) : M Target :=
  if PkgTarget t then ret t else panic.

(** Modelled from the spec: [Context.addTargetIfMissing] and
    [Context.targetOrMissing] are not in build.go.  The spec gives the
    registry one operation, GetOrCreate(key, factory): it returns the
    existing Future for the key, or creates one via the factory and
    stores it. *)
Definition GetOrCreate (name : string) (f : M Target) : M Target :=
  fun st =>
    match targets st !! name with
    | Some t => Ok t st
    | None =>
        match f st with
        | Ok t st' =>
            Ok t {| created := created st';
                    targets := <[name := t]> (targets st') |}
        | Panic => Panic
        | OutOfFuel => OutOfFuel
        end
    end.

(** Modelled from the spec: [Context.addTargetIfMissing], the registry
    operation [Compile] calls. *)
Definition addTargetIfMissing := GetOrCreate.

(** Modelled from the spec: [Context.targetOrMissing], the registry
    operation [buildPackage] calls.  Its factory ends in [Compile], which
    registers the same key and returns what it registered, so storing
    the factory's result again changes nothing. *)
Definition targetOrMissing := GetOrCreate.

Section Graph.
Context `{W : World}.

(** The stage constructors of build.go. *)
Definition Gc (pkg : Package) (gofiles : list string) (deps : list Target)
    : M Target :=
  alloc (fun id => gc id pkg gofiles deps).

Definition Asm (pkg : Package) (sfile : string) : M Target :=
  alloc (fun id => asm id pkg sfile).

Definition Pack (pkg : Package) (deps : list Target) : M Target :=
  alloc (fun id => pack id pkg deps).

Definition Ld (pkg : Package) (afile : Target) : M Target :=
  alloc (fun id => ld id pkg afile).

(** Modelled from the spec: [Install] is not in build.go.
    Install(unit, artifact) is an external step that returns the
    installed artifact wrapped as a Future. *)
Definition Install (pkg : Package) (t : Target) : M Target :=
  alloc (fun id => install id pkg t).

(** Modelled from the spec: [cachedPackage] is not in build.go.
    CachedArtifact(unit) returns the existing artifact wrapped as an
    already-resolved Future. *)
Definition cachedPackage (pkg : Package) : M Target :=
  alloc (fun id => cached id pkg).

(** [fmt.Sprintf("compile:%s:%s", pkg.Scope, pkg.p.ImportPath)]. *)
Definition compile_key (pkg : Package) : string :=
  "compile:" +:+ Scope pkg +:+ ":" +:+ build.ImportPath (p pkg).

(** [for _, sfile := range pkg.p.SFiles { objs = append(objs, Asm(pkg, sfile)) }] *)
Fixpoint asm_loop (pkg : Package) (sfiles : list string)
    (objs : list Target) : M (list Target) :=
  match sfiles with
  | [] => ret objs
  | sfile :: rest =>
      a <- Asm pkg sfile ;;
      asm_loop pkg rest (objs ++ [a])
  end.

(** The function handed to [addTargetIfMissing] by [Compile].  The
    [CgoFiles] branch of the source has an empty body. *)
Definition Compile_body (pkg : Package) (deps : list Target) : M Target :=
  if negb (isStale pkg) then cachedPackage pkg
  else
    let gofiles := ([] ++ build.GoFiles (p pkg)) in
    g <- Gc pkg gofiles deps ;;
    objs <- asm_loop pkg (build.SFiles (p pkg)) ([] ++ [g]) ;;
    if pkg_Complete pkg then
      match objs with
      | o :: _ => o' <- assert_PkgTarget o ;; Install pkg o'
      | [] => panic
      end
    else
      a <- Pack pkg objs ;;
      Install pkg a.

Definition Compile (pkg : Package) (deps : list Target) : M Target :=
  match pkg_Result pkg with
  | Some err => ret (errTarget ("compile: " +:+ err))
  | None =>
      t <- addTargetIfMissing (compile_key pkg) (Compile_body pkg deps) ;;
      assert_PkgTarget t
  end.

(** The loop shared by [buildDependencies] and [buildCommand]: skip the
    imports in [stdlib], resolve and build the others, in order. *)
Fixpoint range_imports (buildPackage : Package -> M Target)
    (imports : list string) (deps : list Target) : M (list Target) :=
  match imports with
  | [] => ret deps
  | dep :: rest =>
      if decide (dep ∈ stdlib) then range_imports buildPackage rest deps
      else
        t <- buildPackage (resolvePackage dep) ;;
        range_imports buildPackage rest (deps ++ [t])
  end.

(** [buildPackage] and [buildDependencies] call each other along the
    import graph; [fuel] bounds the depth of that recursion. *)
Fixpoint buildPackage (fuel : nat) (pkg : Package) : M Target :=
  match pkg_Result pkg with
  | Some err => ret (errTarget ("buildPackage: " +:+ err))
  | None =>
      targetOrMissing (compile_key pkg)
        (match fuel with
         | 0 => out_of_fuel
         | S n =>
             deps <- range_imports (buildPackage n)
                       (build.Imports (p pkg)) [] ;;
             Compile pkg deps
         end)
  end.

Definition buildDependencies (fuel : nat) (imports : list string)
    : M (list Target) :=
  range_imports (buildPackage fuel) imports [].

Definition buildCommand (fuel : nat) (pkg : Package) : M Target :=
  deps <- range_imports (buildPackage fuel) (build.Imports (p pkg)) [] ;;
  compile <- Compile pkg deps ;;
  Ld pkg compile.

(** ** Running the targets *)

Definition first_failure (deps : list error) : error :=
  match filter is_Some deps with
  | e :: _ => e
  | [] => None
  end.

(** Modelled from the spec: [newTarget] and [target.Result] are not in
    build.go.  If any upstream Future resolves to failure, the Future
    resolves to the first such failure and the producer is never
    invoked; otherwise the producer runs once and its outcome is the
    Future's outcome. *)
Definition newTarget (f : Run) (deps : list error) : Run :=
  match first_failure deps with
  | Some err => ([], Some err)
  | None => f
  end.

Definition Target_Objfile (t : Target) : string :=
  match t with
  | gc _ pkg _ _ => gc_Objfile pkg
  | asm _ pkg sfile => asm_Objfile pkg sfile
  | _ => ""
  end.

Definition Target_Pkgfile (t : Target) : string :=
  match t with
  | errTarget _ => errTarget_Pkgfile
  | cached _ pkg => cachedPackage_Pkgfile pkg
  | gc _ pkg _ _ => gc_Pkgfile pkg
  | pack _ pkg _ => pack_Pkgfile pkg
  | install _ pkg _ => Install_Pkgfile pkg
  | asm _ _ _ | ld _ _ _ => ""
  end.

(** The toolchain calls a target's own producer makes, and the error
    its [Result()] returns.  [gc], [asm] and [ld] embed a [target] made by
    [newTarget]; [pack] runs [pack.pack] over its inputs.  Modelled from
    the spec for the targets declared outside build.go: an [errTarget] is
    already resolved to its error, a cached package is already resolved
    to success, an install runs the external install step once its input
    has succeeded. *)
Fixpoint Target_run (t : Target) : Run :=
  match t with
  | errTarget err => ([], Some err)
  | cached _ _ => ([], None)
  | gc _ pkg gofiles deps =>
      newTarget (gc_compile pkg gofiles)
        (List.map (fun d => (Target_run d).2) deps)
  | asm _ pkg sfile => newTarget (asm_asm pkg sfile) []
  | pack _ pkg objs =>
      pack_pack
        (List.map (fun o => {| Result := (Target_run o).2;
                               Objfile := Target_Objfile o |}) objs)
  | ld _ pkg afile =>
      newTarget (ld_link pkg (Target_Pkgfile afile)) [(Target_run afile).2]
  | install _ pkg t' =>
      newTarget ([], Install_run pkg) [(Target_run t').2]
  end.

Definition Target_Result (t : Target) : error := (Target_run t).2.

Definition Build (fuel : nat) (pkg : Package) : M Target :=
  t <- buildPackage fuel pkg ;;
  match Target_Result t with
  | None =>
      if pkg_isMain pkg then
        t' <- assert_PkgTarget t ;;
        Ld pkg t'
      else ret t
  | Some _ => ret t
  end.

(** ** Predicates used by the statements *)

(** Every registered target passes [.(PkgTarget)]. *)
Definition registry_ok (st : State) : Prop :=
  forall name t, targets st !! name = Some t -> PkgTarget t = true.

(** Every import of [pkg] outside [stdlib] resolves to a package that
    satisfies [ok]. *)
Definition imports_within (ok : Package -> bool) (pkg : Package) : bool :=
  forallb (fun dep => bool_decide (dep ∈ stdlib) || ok (resolvePackage dep))
          (build.Imports (p pkg)).

(** The part of the import graph that [buildPackage] walks from [pkg] is
    at most [fuel] deep: imports in [stdlib] are not followed, and a
    package with failed metadata is not entered. *)
Fixpoint within (fuel : nat) (pkg : Package) : bool :=
  match pkg_Result pkg with
  | Some _ => true
  | None =>
      match fuel with
      | 0 => false
      | S n => imports_within (within n) pkg
      end
  end.

(** The targets made between two states. *)
Definition made (st st' : State) : list Target :=
  drop (length (created st)) (created st').

(** The assembler targets [asm_loop] makes for [sfiles], the first one
    with number [n]. *)
Fixpoint asm_targets (n : nat) (pkg : Package) (sfiles : list string)
    : list Target :=
  match sfiles with
  | [] => []
  | sfile :: rest => asm n pkg sfile :: asm_targets (S n) pkg rest
  end.

(** The state only grows: registered targets stay registered under
    their key, made targets stay made. *)
Definition extends (st st' : State) : Prop :=
  (forall name t,
      targets st !! name = Some t -> targets st' !! name = Some t)
  /\ created st `prefix_of` created st'.

(** [st] with [ts] made after it and [name] registered for [t]. *)
Definition grown (st : State) (ts : list Target) : State :=
  {| created := created st ++ ts; targets := targets st |}.

Definition registered (name : string) (t : Target) (st : State) : State :=
  {| created := created st; targets := <[name := t]> (targets st) |}.

(** The artifact handed to the linker came out of the archive-or-
    passthrough step: an install of an archive or of a compiled object. *)
Definition archive_or_passthrough (t : Target) : bool :=
  match t with
  | install _ _ t' => is_pack t' || is_gc t'
  | _ => false
  end.

End Graph.

(** [keeps m P]: whenever [m] returns, the state has only grown, a sound
    registry is still sound, and the value satisfies [P]. *)
Definition keeps {A} (m : M A) (P : A -> Prop) : Prop :=
  forall st a st',
    m st = Ok a st' ->
    extends st st' /\ (registry_ok st -> registry_ok st' /\ P a).

(** [returns m]: from a sound registry, [m] returns. *)
Definition returns {A} (m : M A) : Prop :=
  forall st, registry_ok st -> exists a st', m st = Ok a st'.

(** ** Predicates used by the further properties *)

(** [s] has no colon, the separator of [compile_key]. *)
Fixpoint no_colon (s : string) : bool :=
  match s with
  | EmptyString => true
  | String c rest => negb (Ascii.eqb c ":"%char) && no_colon rest
  end.

(** [s] has no dot. *)
Fixpoint no_dot (s : string) : bool :=
  match s with
  | EmptyString => true
  | String c rest => negb (Ascii.eqb c "."%char) && no_dot rest
  end.

(** What the function [Compile] hands to the registry returns: a cached
    package or an installed artifact. *)
Definition final_artifact (t : Target) : bool :=
  match t with
  | cached _ _ | install _ _ _ => true
  | _ => false
  end.

Definition registry_final (st : State) : Prop :=
  forall name t, targets st !! name = Some t -> final_artifact t = true.

(** ** A concrete world

    The scenario of the specification: the command [app] imports [lib]
    and [fmt]; [lib] imports [util]; [lib] is not stale, everything else
    is; [fmt] is in the standard library; the toolchain fails on the
    compilation of [broken]. *)

Module Fixture.

Definition base (path : string) : string :=
  if String.eqb path "x/t" then "t" else path.

Definition mk (scope path : string) (gofiles sfiles imports : list string)
    (complete main : bool) (res : error) : Package :=
  {| p := {| build.ImportPath := path;
             build.Name := base path;
             build.Dir := "/src/" +:+ path;
             build.GoFiles := gofiles;
             build.CgoFiles := [];
             build.SFiles := sfiles;
             build.Imports := imports |};
     Scope := scope;
     ExtraIncludes := "/w/" +:+ path +:+ "/_test";
     pkg_Name := base path;
     pkg_Complete := complete;
     pkg_isMain := main;
     pkg_Result := res |}.

Definition util : Package := mk "" "util" ["u.go"] [] [] true false None.
Definition lib : Package := mk "" "lib" ["l.go"] [] ["util"] true false None.
Definition app : Package :=
  mk "" "app" ["main.go"] [] ["fmt"; "lib"; "util"] true true None.
Definition broken : Package :=
  mk "" "broken" ["b.go"] [] [] true true None.
Definition missing (path : string) : Package :=
  mk "" path [] [] [] false false (Some "no such package").

(** A complete unit with two assembly files and no Go file. *)
Definition twoasm : Package :=
  mk "" "twoasm" [] ["a.s"; "b.s"] [] true false None.

(** A unit with Go and assembly files that is not complete. *)
Definition mixed : Package :=
  mk "" "mixed" ["m.go"] ["foo.s"] [] false false None.

(** A test-scope command. *)
Definition t : Package := mk "test" "x/t" ["t_test.go"] [] [] true true None.

Definition resolve (path : string) : Package :=
  if String.eqb path "util" then util
  else if String.eqb path "lib" then lib
  else if String.eqb path "app" then app
  else missing path.

Definition toolchain (c : TcCall) : error :=
  match c with
  | TcGc _ importpath _ _ _ _ =>
      if String.eqb importpath "broken" then Some "gc: exit status 1"
      else None
  | _ => None
  end.

#[export] Instance world : World :=
  {| workdir := "/w";
     IncludePaths := ["/w/pkg"];
     tc := toolchain;
     stdlib := {["fmt"]};
     resolvePackage := resolve;
     isStale := fun pkg => negb (String.eqb (build.ImportPath (p pkg)) "lib");
     errTarget_Pkgfile := "";
     cachedPackage_Pkgfile := fun pkg => "/w/pkg/" +:+ pkg_Name pkg +:+ ".a";
     Install_Pkgfile := fun pkg => "/w/pkg/" +:+ pkg_Name pkg +:+ ".a";
     Install_run := fun _ => None |}.

(** Three inputs of an archive: the second and the third failed. *)
Definition objs_fail : list ObjTarget :=
  [ {| Result := None; Objfile := "/w/p.a" |};
    {| Result := Some "asm a.s"; Objfile := "/w/p/a.6" |};
    {| Result := Some "asm b.s"; Objfile := "/w/p/b.6" |} ].

Definition objs_ok : list ObjTarget :=
  [ {| Result := None; Objfile := "/w/p.a" |};
    {| Result := None; Objfile := "/w/p/a.6" |} ].

End Fixture.

(** A world with an import cycle: [loop] imports [fmt] and itself. *)
Module Cycle.

Definition loop : Package :=
  Fixture.mk "" "loop" ["loop.go"] [] ["fmt"; "loop"] true false None.

#[export] Instance world : World :=
  {| workdir := "/w";
     IncludePaths := ["/w/pkg"];
     tc := fun _ => None;
     stdlib := {["fmt"]};
     resolvePackage := fun _ => loop;
     isStale := fun _ => true;
     errTarget_Pkgfile := "";
     cachedPackage_Pkgfile := fun pkg => "/w/pkg/" +:+ pkg_Name pkg +:+ ".a";
     Install_Pkgfile := fun pkg => "/w/pkg/" +:+ pkg_Name pkg +:+ ".a";
     Install_run := fun _ => None |}.

End Cycle.

(** * Properties *)

Example Ext_foo_s : filepath.Ext "foo.s" = ".s".
Proof. reflexivity. Qed.

Example Ext_last_element : filepath.Ext "a.b/c" = "".
Proof. reflexivity. Qed.

Example Clean_dotdot : filepath.Clean "a//b/./c/.." = "a/b".
Proof. reflexivity. Qed.

Example Join_skips_empty : filepath.Join [""; "a"; ""; "b"] = "a/b".
Proof. reflexivity. Qed.

Example Dir_import_path : filepath.Dir "github.com/x/y" = "github.com/x".
Proof. reflexivity. Qed.

(** ** Output paths *)

Section PathProperties.
Context `{W : World}.

Lemma stripext_length (path : string) :
  stripext path
  = String.substring 0 (String.length (filepath.Ext path)) path.
Proof. reflexivity. Qed.

Lemma objdir_test (pkg : Package) :
  Scope pkg = "test" ->
  objdir pkg
  = filepath.Join
      [testobjdir pkg; filepath.Dir (build.ImportPath (p pkg))].
Proof.
  intros Hs. unfold objdir, filepath.FromSlash. rewrite Hs.
  reflexivity.
Qed.

Lemma objdir_other (pkg : Package) :
  Scope pkg <> "test" ->
  objdir pkg
  = filepath.Join [workdir; filepath.Dir (build.ImportPath (p pkg))].
Proof.
  intros Hs. unfold objdir, filepath.FromSlash.
  destruct (String.eqb_spec (Scope pkg) "test") as [He | _];
    [contradiction | reflexivity].
Qed.

End PathProperties.

(** C10: the object file of an assembly source.  [stripext] keeps the
    first [len(ext)] bytes of the name instead of dropping the last
    [len(ext)]: for [foo.s] the extension is [.s], so the stripped name is
    [fo] and the object file is [fo.6] below the work directory and the
    import path, where the name without its extension would give
    [foo.6]. *)
Theorem asm_Objfile_foo_s :
  filepath.Ext "foo.s" = ".s"
  /\ stripext "foo.s" = "fo"
  /\ path_without_ext "foo.s" = "foo"
  /\ (forall (W : World) (pkg : Package),
        asm_Objfile pkg "foo.s"
        = filepath.Join [workdir; build.ImportPath (p pkg); "fo.6"])
  /\ @asm_Objfile Fixture.world Fixture.mixed "foo.s" = "/w/mixed/fo.6".
Proof. repeat split. Qed.

Example stripext_short_name : stripext "a.s" = "a." /\ stripext "x.go" = "x.g".
Proof. split; reflexivity. Qed.

(** ** Stage producers *)

Section ProducerProperties.
Context `{W : World}.

Lemma call_trace (c : TcCall) : (call c).1 = [c].
Proof. reflexivity. Qed.

(** C9: scope [test] against every other scope, in the linker and in the
    compiler.  With scope [test] the linker's output path is the path
    it computes for any unit, [filepath.Join(objdir(pkg), pkg.p.Name)],
    with [.test] appended, and the linker and the compiler are given
    the context's include paths followed by the package's extra include
    path.  With any other scope the path has no suffix and the include
    paths are the context's alone. *)
Theorem test_scope_suffix_and_includes
    (pkg : Package) (gofiles : list string) (afile : string) :
  (Scope pkg = "test" ->
     ld_link pkg afile
     = call (TcLd (IncludePaths ++ [ExtraIncludes pkg])
               (filepath.Join [objdir pkg; build.Name (p pkg)] +:+ ".test")
               afile)
     /\ gc_compile pkg gofiles
        = call (TcGc (IncludePaths ++ [ExtraIncludes pkg])
                  (build.ImportPath (p pkg)) (build.Dir (p pkg))
                  (gc_Objfile pkg) gofiles (pkg_Complete pkg)))
  /\ (Scope pkg <> "test" ->
        ld_link pkg afile
        = call (TcLd IncludePaths
                  (filepath.Join [objdir pkg; build.Name (p pkg)]) afile)
        /\ gc_compile pkg gofiles
           = call (TcGc IncludePaths
                     (build.ImportPath (p pkg)) (build.Dir (p pkg))
                     (gc_Objfile pkg) gofiles (pkg_Complete pkg))).
Proof.
  unfold ld_link, gc_compile.
  split; intros Hs.
  - rewrite Hs. split; reflexivity.
  - destruct (String.eqb_spec (Scope pkg) "test") as [He | _];
      [contradiction | split; reflexivity].
Qed.

(** The loop of [pack.pack] from any accumulator. *)
Lemma pack_loop_all_ok (objs : list ObjTarget) (afiles : list string) :
  Forall (fun o => Result o = None) objs ->
  pack_loop objs afiles = call (TcPack (afiles ++ List.map Objfile objs)).
Proof.
  revert afiles.
  induction objs as [| o objs IH]; intros afiles Hall; simpl.
  - by rewrite app_nil_r.
  - inversion Hall as [| ? ? Ho Hrest]; subst.
    rewrite Ho, (IH _ Hrest), <- app_assoc. reflexivity.
Qed.

Lemma pack_loop_first_failure
    (pre post : list ObjTarget) (o : ObjTarget) (err : string)
    (afiles : list string) :
  Forall (fun x => Result x = None) pre ->
  Result o = Some err ->
  pack_loop (pre ++ o :: post) afiles = ([], Some err).
Proof.
  revert afiles.
  induction pre as [| x pre IH]; intros afiles Hpre Ho; simpl.
  - by rewrite Ho.
  - inversion Hpre as [| ? ? Hx Hrest]; subst.
    rewrite Hx. by apply IH.
Qed.

(** Either every input succeeded or there is a first one that failed. *)
Lemma first_failed_input (objs : list ObjTarget) :
  Forall (fun o => Result o = None) objs
  \/ exists pre o post err,
       objs = pre ++ o :: post
       /\ Forall (fun x => Result x = None) pre
       /\ Result o = Some err.
Proof.
  induction objs as [| x objs IH].
  - left. constructor.
  - destruct (Result x) as [err |] eqn:Hx.
    + right. exists [], x, objs, err. repeat split; [constructor | done].
    + destruct IH as [Hall | (pre & o & post & err & -> & Hpre & Ho)].
      * left. by constructor.
      * right. exists (x :: pre), o, post, err.
        repeat split; [by constructor | done].
Qed.

(** C2: [pack.pack] reads its inputs in slice order.  When an input
    failed, the value sent on the channel is the error of the first
    failing input and no toolchain call is made; when every input
    succeeded, exactly one call is made, [tc.Pack] over the object files
    of all inputs in order, and its error is the value sent; and a
    toolchain call is made only when every input succeeded. *)
Theorem pack_pack_first_failure (objs : list ObjTarget) :
  (forall pre o post err,
      objs = pre ++ o :: post ->
      Forall (fun x => Result x = None) pre ->
      Result o = Some err ->
      pack_pack objs = ([], Some err))
  /\ (Forall (fun o => Result o = None) objs ->
      pack_pack objs
      = ([TcPack (List.map Objfile objs)],
         tc (TcPack (List.map Objfile objs))))
  /\ ((pack_pack objs).1 <> [] ->
      Forall (fun o => Result o = None) objs).
Proof.
  unfold pack_pack. split; [| split].
  - intros pre o post err -> Hpre Ho.
    by apply pack_loop_first_failure.
  - intros Hall. by rewrite pack_loop_all_ok.
  - intros Hcalls.
    destruct (first_failed_input objs)
      as [Hall | (pre & o & post & err & -> & Hpre & Ho)]; [done |].
    rewrite (pack_loop_first_failure pre post o err [] Hpre Ho) in Hcalls.
    done.
Qed.

End ProducerProperties.

(** ** The channel cell of a [pack] target *)

Section CellProperties.
Context `{W : World}.

Lemma holders_app (ks ks' : list Caller) :
  holders (ks ++ ks') = holders ks + holders ks'.
Proof.
  induction ks as [| k ks IH]; simpl; [done |].
  rewrite IH. lia.
Qed.

Lemma holders_insert (ks : list Caller) (i : nat) (k k' : Caller) :
  ks !! i = Some k ->
  holders (<[i := k']> ks) + holding k = holders ks + holding k'.
Proof.
  revert i. induction ks as [| x ks IH]; intros [| i] Hi; simpl in *;
    try done.
  - inversion Hi; subst. lia.
  - specialize (IH i Hi). lia.
Qed.

Lemma holders_waiting (ks : list Caller) :
  Forall (fun k => k = AtRecv) ks -> holders ks = 0.
Proof.
  induction 1 as [| k ks -> _ IH]; simpl; [done | by rewrite IH].
Qed.

Lemma holders_find (ks : list Caller) :
  0 < holders ks -> exists i err, ks !! i = Some (AtSend err).
Proof.
  induction ks as [| k ks IH]; simpl; [lia |].
  destruct k as [| err | err]; simpl; intros Hpos.
  - destruct (IH Hpos) as (i & err & Hi). by exists (S i), err.
  - by exists 0, err.
  - destruct (IH Hpos) as (i & err' & Hi). by exists (S i), err'.
Qed.

Lemma cell_inv_init (objs : list ObjTarget) : cell_inv objs Pack_cell.
Proof. repeat split; constructor. Qed.

Lemma cell_inv_step (objs : list ObjTarget) (a : Action) (c c' : Cell) :
  cell_inv objs c -> step objs a c = Some c' -> cell_inv objs c'.
Proof.
  unfold cell_inv, in_buffer.
  destruct c as [ch snt rn cl ks]; destruct a as [| | i | i]; simpl.
  - (* the producer sends *)
    destruct snt; [done |]. intros (-> & -> & -> & Hks) [= <-]; simpl.
    repeat split; try done.
    + by rewrite (holders_waiting ks Hks).
    + by intros e [= <-].
    + eapply Forall_impl; [exact Hks |]. by intros k ->.
  - (* a new caller *)
    intros Hinv [= <-]; simpl. destruct snt.
    + destruct Hinv as (Hr & Hc & Hone & Hch & Hks).
      repeat split; try done.
      * rewrite holders_app. simpl. lia.
      * apply Forall_app. split; [done |]. by repeat constructor.
    + destruct Hinv as (Hr & Hc & Hch & Hks).
      repeat split; try done.
      apply Forall_app. split; [done |]. by repeat constructor.
  - (* a receive *)
    destruct (ks !! i) as [[| e | e] |] eqn:Hi; try done.
    destruct ch as [err |]; [| done].
    intros Hinv [= <-]; simpl. destruct snt.
    + destruct Hinv as (Hr & Hc & Hone & Hch & Hks). simpl in Hone.
      pose proof (holders_insert ks i AtRecv (AtSend err) Hi) as Hh.
      simpl in Hh.
      repeat split; try done; [lia |].
      apply Forall_insert; [done |]. simpl. by apply Hch.
    + by destruct Hinv as (_ & _ & ? & _).
  - (* a send *)
    destruct (ks !! i) as [[| e | e] |] eqn:Hi; try done.
    destruct ch as [err |]; [done |].
    intros Hinv [= <-]; simpl. destruct snt.
    + destruct Hinv as (Hr & Hc & Hone & Hch & Hks). simpl in Hone.
      pose proof (holders_insert ks i (AtSend e) (Returned e) Hi) as Hh.
      simpl in Hh.
      assert (He : e = (pack_pack objs).2).
      { rewrite Forall_lookup in Hks. exact (Hks i _ Hi). }
      repeat split; try done; [lia | by intros ? [= <-] |].
      by apply Forall_insert.
    + destruct Hinv as (_ & _ & _ & Hks).
      rewrite Forall_lookup in Hks. by specialize (Hks i _ Hi).
Qed.

Lemma cell_inv_exec (objs : list ObjTarget) (sched : list Action)
    (c c' : Cell) :
  cell_inv objs c -> exec objs sched c = Some c' -> cell_inv objs c'.
Proof.
  revert c. induction sched as [| a sched IH]; intros c Hinv; simpl.
  - by intros [= <-].
  - destruct (step objs a c) as [c1 |] eqn:Hstep; [| done].
    apply IH. by eapply cell_inv_step.
Qed.

(** Once the value is back in the buffer, [n] further calls of
    [Result()] one after the other all return it. *)
Lemma exec_sequential_calls (objs : list ObjTarget) (n : nat)
    (v : error) (cl : list TcCall) (ks : list Caller) :
  exec objs (sequential_calls (length ks) n)
    {| chan := Some v; sent := true; runs := 1; calls := cl;
       callers := ks |}
  = Some {| chan := Some v; sent := true; runs := 1; calls := cl;
            callers := ks ++ replicate n (Returned v) |}.
Proof.
  revert ks. induction n as [| n IH]; intros ks; simpl.
  - by rewrite app_nil_r.
  - rewrite lookup_app_r, Nat.sub_diag by done. simpl.
    rewrite list_lookup_insert_eq by (rewrite length_app; simpl; lia).
    rewrite list_insert_insert_eq.
    replace (<[length ks := Returned v]> (ks ++ [AtRecv]))
      with (ks ++ [Returned v]).
    2:{ rewrite insert_app_r_alt, Nat.sub_diag by done. done. }
    replace (S (length ks)) with (length (ks ++ [Returned v]))
      by (rewrite length_app; simpl; lia).
    rewrite IH, <- app_assoc. done.
Qed.

(** C4: [Result()] on a [pack] target.  In every state the cell can
    reach, under any interleaving of the producer goroutine with any
    number of callers, [pack.pack] has run at most once and has made
    its toolchain calls at most once; every call that has returned did
    so after that single run and returned the value the producer sent.
    A blocked cell is a finished one: as long as some call has not
    returned, the producer or one of the callers can move.  And [n]
    calls one after the other all return, with the same value, leaving
    the single run in place. *)
Theorem pack_Result_once (objs : list ObjTarget) :
  (forall sched c,
      exec objs sched Pack_cell = Some c ->
      runs c <= 1
      /\ calls c = (if sent c then (pack_pack objs).1 else [])
      /\ (forall i err,
            callers c !! i = Some (Returned err) ->
            runs c = 1 /\ err = (pack_pack objs).2)
      /\ ((exists i k, callers c !! i = Some k
                       /\ forall err, k <> Returned err) ->
          exists a c', a <> CallResult /\ step objs a c = Some c'))
  /\ (forall n,
        exec objs (Produce :: sequential_calls 0 n) Pack_cell
        = Some {| chan := Some (pack_pack objs).2; sent := true;
                  runs := 1; calls := (pack_pack objs).1;
                  callers := replicate n (Returned (pack_pack objs).2) |}).
Proof.
  split.
  - intros sched c Hexec.
    pose proof (cell_inv_exec objs sched _ c (cell_inv_init objs) Hexec)
      as Hinv.
    unfold cell_inv in Hinv. destruct c as [ch snt rn cl ks]; simpl in *.
    destruct snt.
    + destruct Hinv as (-> & -> & Hone & Hch & Hks).
      split_and!; try done.
      * intros i err Hi. split; [done |].
        rewrite Forall_lookup in Hks. exact (Hks i _ Hi).
      * intros (i & k & Hi & Hk).
        destruct ch as [v |]; simpl in Hone.
        -- destruct k as [| e | e].
           ++ exists (Recv i). eexists. split; [done |]. simpl.
              by rewrite Hi.
           ++ pose proof (holders_insert ks i _ AtRecv Hi) as Hh.
              simpl in Hh. lia.
           ++ by destruct (Hk e).
        -- destruct (holders_find ks) as (j & e & Hj); [lia |].
           exists (Send j). eexists. split; [done |]. simpl.
           by rewrite Hj.
    + destruct Hinv as (-> & -> & -> & Hks).
      split_and!; try done.
      * lia.
      * intros i err Hi.
        rewrite Forall_lookup in Hks. by specialize (Hks i _ Hi).
      * intros _. exists Produce. eexists. split; [done |]. done.
  - intros n. simpl.
    exact (exec_sequential_calls objs n _ _ []).
Qed.

End CellProperties.

(** ** Graph construction *)

Section CompileProperties.
Context `{W : World}.

Lemma made_grown (st : State) (ts : list Target) :
  made st (grown st ts) = ts.
Proof. unfold made, grown. simpl. by rewrite drop_app_length. Qed.

Lemma made_registered (st st' : State) (name : string) (t : Target) :
  made st (registered name t st') = made st st'.
Proof. reflexivity. Qed.

Lemma grown_grown (st : State) (ts ts' : list Target) :
  grown (grown st ts) ts' = grown st (ts ++ ts').
Proof. unfold grown. simpl. by rewrite app_assoc. Qed.

Lemma length_created_grown (st : State) (ts : list Target) :
  length (created (grown st ts)) = length (created st) + length ts.
Proof. unfold grown. simpl. by rewrite length_app. Qed.

Lemma alloc_eq (mk : nat -> Target) (st : State) :
  alloc mk st = Ok (mk (length (created st)))
                   (grown st [mk (length (created st))]).
Proof. reflexivity. Qed.

Lemma bind_Ok {A B} (m : M A) (k : A -> M B) (st st' : State) (a : A) :
  m st = Ok a st' -> bind m k st = k a st'.
Proof. unfold bind. by intros ->. Qed.

Lemma length_asm_targets (n : nat) (pkg : Package) (sfiles : list string) :
  length (asm_targets n pkg sfiles) = length sfiles.
Proof.
  revert n. induction sfiles as [| s sfiles IH]; intros n; simpl;
    [done | by rewrite IH].
Qed.

Lemma asm_targets_stages (n : nat) (pkg : Package) (sfiles : list string) :
  Forall (fun t => is_asm t = true) (asm_targets n pkg sfiles).
Proof.
  revert n. induction sfiles as [| s sfiles IH]; intros n; simpl;
    constructor; [done | apply IH].
Qed.

Lemma asm_loop_eq (pkg : Package) (sfiles : list string)
    (objs : list Target) (st : State) :
  asm_loop pkg sfiles objs st
  = Ok (objs ++ asm_targets (length (created st)) pkg sfiles)
       (grown st (asm_targets (length (created st)) pkg sfiles)).
Proof.
  revert objs st. induction sfiles as [| s sfiles IH]; intros objs st.
  - simpl. unfold ret, grown. rewrite !app_nil_r. by destruct st.
  - cbn [asm_loop asm_targets]. unfold Asm.
    erewrite bind_Ok by apply alloc_eq.
    rewrite IH, grown_grown, length_created_grown, <- app_assoc.
    cbn [length app]. by rewrite Nat.add_1_r.
Qed.

(** What [Compile] hands to [addTargetIfMissing], case by case. *)
Lemma Compile_body_fresh (pkg : Package) (deps : list Target) (st : State) :
  isStale pkg = false ->
  Compile_body pkg deps st
  = Ok (cached (length (created st)) pkg)
       (grown st [cached (length (created st)) pkg]).
Proof. intros Hs. unfold Compile_body. by rewrite Hs. Qed.

Lemma Compile_body_stale (pkg : Package) (deps : list Target) (st : State) :
  isStale pkg = true ->
  let n := length (created st) in
  let g := gc n pkg (build.GoFiles (p pkg)) deps in
  let objs := g :: asm_targets (S n) pkg (build.SFiles (p pkg)) in
  let k := S n + length (build.SFiles (p pkg)) in
  Compile_body pkg deps st
  = if pkg_Complete pkg
    then Ok (install k pkg g) (grown st (objs ++ [install k pkg g]))
    else Ok (install (S k) pkg (pack k pkg objs))
            (grown st (objs ++ [pack k pkg objs;
                                install (S k) pkg (pack k pkg objs)])).
Proof.
  intros Hs n g objs k. subst n g objs k.
  unfold Compile_body. rewrite Hs. cbn [negb app]. unfold Gc.
  erewrite bind_Ok by apply alloc_eq.
  erewrite bind_Ok by apply asm_loop_eq.
  rewrite grown_grown, length_created_grown.
  cbn [length app]. rewrite Nat.add_1_r.
  set (n := length (created st)).
  set (objs := gc n pkg _ deps :: asm_targets (S n) pkg _).
  assert (Hk : n + length objs = S n + length (build.SFiles (p pkg))).
  { subst objs. cbn [length]. rewrite length_asm_targets. lia. }
  destruct (pkg_Complete pkg).
  - unfold assert_PkgTarget, Install. cbn [PkgTarget].
    erewrite bind_Ok by reflexivity.
    rewrite alloc_eq, grown_grown, length_created_grown. fold n.
    by rewrite Hk.
  - unfold Pack, Install.
    erewrite bind_Ok by apply alloc_eq.
    rewrite alloc_eq, !grown_grown, !length_created_grown. fold n.
    rewrite length_app, Nat.add_assoc, Hk. cbn [length].
    rewrite Nat.add_1_r. by rewrite <- app_assoc.
Qed.

Lemma GetOrCreate_hit (name : string) (f : M Target) (st : State)
    (t : Target) :
  targets st !! name = Some t -> GetOrCreate name f st = Ok t st.
Proof. unfold GetOrCreate. by intros ->. Qed.

Lemma GetOrCreate_miss (name : string) (f : M Target) (st st' : State)
    (t : Target) :
  targets st !! name = None ->
  f st = Ok t st' ->
  GetOrCreate name f st = Ok t (registered name t st').
Proof. unfold GetOrCreate. by intros -> ->. Qed.

Lemma Compile_registered (pkg : Package) (deps : list Target) (st : State)
    (t : Target) :
  pkg_Result pkg = None ->
  targets st !! compile_key pkg = Some t ->
  PkgTarget t = true ->
  Compile pkg deps st = Ok t st.
Proof.
  intros Hv Hreg Hpt. unfold Compile, addTargetIfMissing. rewrite Hv.
  erewrite bind_Ok by (by apply GetOrCreate_hit).
  unfold assert_PkgTarget. by rewrite Hpt.
Qed.

Lemma Compile_unregistered (pkg : Package) (deps : list Target)
    (st st' : State) (t : Target) :
  pkg_Result pkg = None ->
  targets st !! compile_key pkg = None ->
  Compile_body pkg deps st = Ok t st' ->
  PkgTarget t = true ->
  Compile pkg deps st = Ok t (registered (compile_key pkg) t st').
Proof.
  intros Hv Hreg Hbody Hpt. unfold Compile, addTargetIfMissing. rewrite Hv.
  erewrite bind_Ok by (by apply GetOrCreate_miss).
  unfold assert_PkgTarget. by rewrite Hpt.
Qed.

(** C5: a unit whose metadata result is a failure.  [buildPackage]
    (with any recursion budget) and [Compile] return at once an
    [errTarget] that wraps the error and whose [Result()] is that error;
    the state is the one they were called in, so the registry is not
    touched and no target at all is made. *)
Theorem invalid_metadata_fails_fast (pkg : Package) (err : string) :
  pkg_Result pkg = Some err ->
  forall (fuel : nat) (deps : list Target) (st : State),
    buildPackage fuel pkg st
    = Ok (errTarget ("buildPackage: " +:+ err)) st
    /\ Compile pkg deps st = Ok (errTarget ("compile: " +:+ err)) st
    /\ Target_Result (errTarget ("buildPackage: " +:+ err))
       = Some ("buildPackage: " +:+ err)
    /\ Target_Result (errTarget ("compile: " +:+ err))
       = Some ("compile: " +:+ err)
    /\ made st st = [].
Proof.
  intros Hr fuel deps st. repeat split.
  - destruct fuel; simpl; by rewrite Hr.
  - unfold Compile. by rewrite Hr.
  - unfold made. apply drop_all.
Qed.

(** C6: a unit with valid metadata that is not stale.  [Compile]
    returns, and whatever it makes is no Compiler-, Assembler-,
    Archiver- or Linker-stage.  On the first request for the unit's key
    it makes one target, the cached package, registers it and returns
    it; when the key is registered already it returns the registered
    target and makes nothing.  Every later request for the unit, from
    any state that still holds what is registered now, returns the same
    target again and leaves that state as it is. *)
Theorem fresh_unit_uses_cached_package
    (pkg : Package) (deps : list Target) (st : State) :
  pkg_Result pkg = None ->
  isStale pkg = false ->
  registry_ok st ->
  exists t st',
    Compile pkg deps st = Ok t st'
    /\ Forall (fun x => is_stage x = false) (made st st')
    /\ (targets st !! compile_key pkg = None ->
        t = cached (length (created st)) pkg
        /\ made st st' = [t]
        /\ targets st' = <[compile_key pkg := t]> (targets st))
    /\ (forall t0, targets st !! compile_key pkg = Some t0 ->
                   t = t0 /\ st' = st)
    /\ (forall deps' st2,
          (forall name x, targets st' !! name = Some x ->
                          targets st2 !! name = Some x) ->
          Compile pkg deps' st2 = Ok t st2).
Proof.
  intros Hv Hs Hok.
  destruct (targets st !! compile_key pkg) as [t0 |] eqn:Hreg.
  - exists t0, st. split_and!.
    + apply Compile_registered; [done | done |]. by eapply Hok.
    + unfold made. rewrite drop_all. constructor.
    + done.
    + by intros ? [= <-].
    + intros deps' st2 Hext.
      apply Compile_registered; [done | by apply Hext | by eapply Hok].
  - eexists _, _. split_and!.
    + eapply Compile_unregistered; [done | done | |].
      * by apply Compile_body_fresh.
      * done.
    + rewrite made_registered, made_grown. by repeat constructor.
    + intros _. by rewrite made_registered, made_grown.
    + done.
    + intros deps' st2 Hext.
      apply Compile_registered; [done | | done].
      apply Hext. simpl. apply lookup_insert_eq.
Qed.

(** C1 as the code has it: a stale unit with valid metadata, on the
    first request for its key.  [Compile] makes the compiler target,
    then one assembler target per assembly file.  When the unit is
    complete it makes no archiver target, whatever the number of
    objects, and installs the first object, the compiler's -- in
    particular when that is the only object.  When the unit is not
    complete it makes one archiver target over all the objects, the
    compiler's first, and installs the archive. *)
Theorem Compile_archives_unless_complete
    (pkg : Package) (deps : list Target) (st : State) :
  pkg_Result pkg = None ->
  isStale pkg = true ->
  targets st !! compile_key pkg = None ->
  let n := length (created st) in
  let g := gc n pkg (build.GoFiles (p pkg)) deps in
  let objs := g :: asm_targets (S n) pkg (build.SFiles (p pkg)) in
  let k := S n + length (build.SFiles (p pkg)) in
  (pkg_Complete pkg = true ->
     Compile pkg deps st
     = Ok (install k pkg g)
          (registered (compile_key pkg) (install k pkg g)
             (grown st (objs ++ [install k pkg g])))
     /\ Forall (fun x => is_pack x = false) (objs ++ [install k pkg g]))
  /\ (pkg_Complete pkg = false ->
        Compile pkg deps st
        = Ok (install (S k) pkg (pack k pkg objs))
             (registered (compile_key pkg)
                (install (S k) pkg (pack k pkg objs))
                (grown st (objs ++ [pack k pkg objs;
                                    install (S k) pkg (pack k pkg objs)])))).
Proof.
  intros Hv Hs Hreg n g objs k.
  pose proof (Compile_body_stale pkg deps st Hs) as Hbody.
  cbv zeta in Hbody. fold n g objs k in Hbody.
  split; intros Hc; rewrite Hc in Hbody.
  - split; [by apply Compile_unregistered |].
    subst objs. apply Forall_app. split; [| by repeat constructor].
    constructor; [done |].
    eapply Forall_impl; [apply asm_targets_stages |].
    by intros [] .
  - by apply Compile_unregistered.
Qed.

End CompileProperties.

(** ** The registry only grows *)

Section RegistryProperties.
Context `{W : World}.

Lemma extends_refl (st : State) : extends st st.
Proof. split; [done | reflexivity]. Qed.

Lemma extends_trans (st1 st2 st3 : State) :
  extends st1 st2 -> extends st2 st3 -> extends st1 st3.
Proof.
  intros [Ht Hc] [Ht' Hc']. split; [by auto | by etrans].
Qed.

Lemma extends_grown (st : State) (ts : list Target) :
  extends st (grown st ts).
Proof. split; [done | by apply prefix_app_r]. Qed.

Lemma registry_ok_empty : registry_ok empty_State.
Proof. intros name t. simpl. by rewrite lookup_empty. Qed.

Lemma registry_ok_registered (st : State) (name : string) (t : Target) :
  registry_ok st -> PkgTarget t = true -> registry_ok (registered name t st).
Proof.
  intros Hok Ht name' t'. unfold registered; simpl.
  rewrite lookup_insert. case_decide; [by intros [= <-] | apply Hok].
Qed.

Lemma keeps_ret {A} (a : A) (P : A -> Prop) : P a -> keeps (ret a) P.
Proof.
  intros HP st a' st' [= <- <-]. split; [apply extends_refl | done].
Qed.

Lemma keeps_bind {A B} (m : M A) (k : A -> M B)
    (P : A -> Prop) (Q : B -> Prop) :
  keeps m P -> (forall a, P a -> keeps (k a) Q) ->
  (forall a, keeps (k a) (fun _ => True)) ->
  keeps (bind m k) Q.
Proof.
  intros Hm Hk Hk' st b st' Hrun. unfold bind in Hrun.
  destruct (m st) as [a st1 | |] eqn:Hmst; try done.
  destruct (Hm _ _ _ Hmst) as [Hext Hok].
  split.
  - eapply extends_trans; [done |]. by eapply Hk'.
  - intros Hst. destruct (Hok Hst) as [Hst1 HP].
    by eapply (Hk a HP).
Qed.

Lemma keeps_weaken {A} (m : M A) (P Q : A -> Prop) :
  keeps m P -> (forall a, P a -> Q a) -> keeps m Q.
Proof.
  intros Hm HPQ st a st' Hrun. destruct (Hm _ _ _ Hrun) as [Hext Hok].
  split; [done |]. intros Hst. destruct (Hok Hst). split; by auto.
Qed.

Lemma keeps_alloc (mk : nat -> Target) (P : Target -> Prop) :
  (forall id, P (mk id)) -> keeps (alloc mk) P.
Proof.
  intros HP st t st'. rewrite alloc_eq. intros [= <- <-].
  split; [apply extends_grown | done].
Qed.

Lemma keeps_GetOrCreate (name : string) (f : M Target) :
  keeps f (fun t => PkgTarget t = true) ->
  keeps (GetOrCreate name f) (fun t => PkgTarget t = true).
Proof.
  intros Hf st t st' Hrun. unfold GetOrCreate in Hrun.
  destruct (targets st !! name) as [t0 |] eqn:Hreg.
  - injection Hrun as <- <-.
    split; [apply extends_refl |]. intros Hok. split; [done |].
    by eapply Hok.
  - destruct (f st) as [t1 st1 | |] eqn:Hfst; try done.
    injection Hrun as <- <-.
    destruct (Hf _ _ _ Hfst) as [[Hts Hcr] Hok].
    split.
    + split; [| done]. intros name' t' Hin. simpl.
      rewrite lookup_insert_ne; [by apply Hts | congruence].
    + intros Hst. destruct (Hok Hst) as [Hst1 Hpt].
      split; [| done]. by apply (registry_ok_registered st1).
Qed.

Lemma keeps_asm_loop (pkg : Package) (sfiles : list string)
    (objs : list Target) :
  keeps (asm_loop pkg sfiles objs) (fun _ => True).
Proof.
  intros st a st'. rewrite asm_loop_eq. intros [= <- <-].
  split; [apply extends_grown | done].
Qed.

Lemma keeps_Compile_body (pkg : Package) (deps : list Target) :
  keeps (Compile_body pkg deps) (fun t => PkgTarget t = true).
Proof.
  intros st t st' Hrun.
  destruct (isStale pkg) eqn:Hs.
  - rewrite (Compile_body_stale pkg deps st Hs) in Hrun.
    destruct (pkg_Complete pkg); injection Hrun as <- <-;
      (split; [apply extends_grown | done]).
  - rewrite (Compile_body_fresh pkg deps st Hs) in Hrun.
    injection Hrun as <- <-. split; [apply extends_grown | done].
Qed.

Lemma keeps_assert_PkgTarget (t : Target) :
  keeps (assert_PkgTarget t) (fun t' => t' = t /\ PkgTarget t' = true).
Proof.
  intros st a st'. unfold assert_PkgTarget.
  destruct (PkgTarget t) eqn:Hpt; [| done].
  intros [= <- <-]. split; [apply extends_refl | done].
Qed.

Lemma keeps_Compile (pkg : Package) (deps : list Target) :
  keeps (Compile pkg deps) (fun t => PkgTarget t = true).
Proof.
  unfold Compile. destruct (pkg_Result pkg) as [err |].
  - by apply keeps_ret.
  - eapply keeps_bind.
    + apply keeps_GetOrCreate, keeps_Compile_body.
    + intros t _. eapply keeps_weaken; [apply keeps_assert_PkgTarget |].
      by intros ? [_ ?].
    + intros t. eapply keeps_weaken; [apply keeps_assert_PkgTarget |].
      done.
Qed.

Lemma keeps_range_imports (build1 : Package -> M Target)
    (imports : list string) (deps : list Target) :
  (forall pkg, keeps (build1 pkg) (fun t => PkgTarget t = true)) ->
  keeps (range_imports build1 imports deps) (fun _ => True).
Proof.
  intros Hb. revert deps.
  induction imports as [| dep imports IH]; intros deps; simpl.
  - by apply keeps_ret.
  - case_decide; [apply IH |].
    eapply keeps_bind; [apply Hb | by intros; apply IH | by intros; apply IH].
Qed.

Lemma keeps_buildPackage (fuel : nat) (pkg : Package) :
  keeps (buildPackage fuel pkg) (fun t => PkgTarget t = true).
Proof.
  revert pkg. induction fuel as [| fuel IH]; intros pkg; simpl;
    (destruct (pkg_Result pkg) as [err |]; [by apply keeps_ret |]);
    apply keeps_GetOrCreate.
  - by intros st t st'.
  - eapply keeps_bind.
    + by apply keeps_range_imports.
    + intros deps _. apply keeps_Compile.
    + intros deps. eapply keeps_weaken; [apply keeps_Compile | done].
Qed.

Lemma keeps_buildCommand (fuel : nat) (pkg : Package) :
  keeps (buildCommand fuel pkg) (fun _ => True).
Proof.
  unfold buildCommand.
  eapply keeps_bind;
    [apply keeps_range_imports, keeps_buildPackage | |].
  all: intros deps; intros;
    (eapply keeps_bind;
     [apply keeps_Compile
     | by intros; apply keeps_alloc
     | by intros; apply keeps_alloc]).
Qed.

Lemma keeps_Build (fuel : nat) (pkg : Package) :
  keeps (Build fuel pkg) (fun _ => True).
Proof.
  unfold Build.
  assert (Hk : forall t,
    keeps (match Target_Result t with
           | Some _ => ret t
           | None =>
               if pkg_isMain pkg
               then bind (assert_PkgTarget t) (fun t' => Ld pkg t')
               else ret t
           end) (fun _ => True)).
  { intros t. destruct (Target_Result t); [by apply keeps_ret |].
    destruct (pkg_isMain pkg); [| by apply keeps_ret].
    eapply keeps_bind;
      [apply keeps_assert_PkgTarget
      | by intros; apply keeps_alloc
      | by intros; apply keeps_alloc]. }
  eapply keeps_bind; [apply keeps_buildPackage | by intros | by intros].
Qed.

(** *** Termination on import graphs of bounded depth *)

Lemma returns_bind {A B} (m : M A) (k : A -> M B) (P : A -> Prop) :
  returns m -> keeps m P -> (forall a, P a -> returns (k a)) ->
  returns (bind m k).
Proof.
  intros Hm Hkeep Hk st Hst.
  destruct (Hm st Hst) as (a & st1 & Hrun).
  destruct (Hkeep _ _ _ Hrun) as [_ Hok].
  destruct (Hok Hst) as [Hst1 HP].
  destruct (Hk a HP st1 Hst1) as (b & st2 & Hrun2).
  exists b, st2. by erewrite bind_Ok.
Qed.

Lemma returns_Compile (pkg : Package) (deps : list Target) :
  returns (Compile pkg deps).
Proof.
  intros st Hst.
  destruct (pkg_Result pkg) as [err |] eqn:Hv.
  { eexists _, _. unfold Compile. by rewrite Hv. }
  destruct (targets st !! compile_key pkg) as [t0 |] eqn:Hreg.
  { exists t0, st. apply Compile_registered; [done | done |].
    by eapply Hst. }
  destruct (isStale pkg) eqn:Hs.
  - pose proof (Compile_body_stale pkg deps st Hs) as Hbody.
    cbv zeta in Hbody.
    destruct (pkg_Complete pkg); eexists _, _;
      by eapply Compile_unregistered.
  - eexists _, _. eapply Compile_unregistered; [done | done | |].
    + by apply Compile_body_fresh.
    + done.
Qed.

Lemma returns_GetOrCreate (name : string) (f : M Target) :
  returns f -> returns (GetOrCreate name f).
Proof.
  intros Hf st Hst.
  destruct (targets st !! name) as [t0 |] eqn:Hreg.
  - exists t0, st. by apply GetOrCreate_hit.
  - destruct (Hf st Hst) as (t & st' & Hrun).
    eexists _, _. by eapply GetOrCreate_miss.
Qed.

Lemma returns_range_imports (build1 : Package -> M Target)
    (imports : list string) (deps : list Target) :
  (forall pkg, keeps (build1 pkg) (fun t => PkgTarget t = true)) ->
  (forall dep, dep ∈ imports -> dep ∉ stdlib ->
               returns (build1 (resolvePackage dep))) ->
  returns (range_imports build1 imports deps).
Proof.
  intros Hkeep. revert deps.
  induction imports as [| dep imports IH]; intros deps Hret; simpl.
  - intros st _. by eexists _, _.
  - case_decide as Hstd.
    + apply IH. intros d Hd. apply Hret. by right.
    + eapply returns_bind; [| apply Hkeep |].
      * apply Hret; [by left | done].
      * intros t _. apply IH. intros d Hd. apply Hret. by right.
Qed.

Lemma imports_within_elem (ok : Package -> bool) (pkg : Package)
    (dep : string) :
  imports_within ok pkg = true ->
  dep ∈ build.Imports (p pkg) -> dep ∉ stdlib ->
  ok (resolvePackage dep) = true.
Proof.
  unfold imports_within. rewrite forallb_forall. intros Hall Hin Hstd.
  specialize (Hall dep). rewrite <- list_elem_of_In in Hall.
  specialize (Hall Hin). apply orb_true_iff in Hall as [Hs | Hw]; [| done].
  by apply bool_decide_eq_true in Hs.
Qed.

Lemma returns_buildPackage (fuel : nat) (pkg : Package) :
  within fuel pkg = true -> returns (buildPackage fuel pkg).
Proof.
  revert pkg. induction fuel as [| fuel IH]; intros pkg Hw;
    cbn [buildPackage within] in *;
    (destruct (pkg_Result pkg) as [err |];
     [intros st _; by eexists _, _ |]); [done |].
  apply returns_GetOrCreate.
  eapply returns_bind.
  - apply returns_range_imports; [apply keeps_buildPackage |].
    intros dep Hin Hstd. apply IH. by eapply imports_within_elem.
  - apply keeps_range_imports, keeps_buildPackage.
  - intros deps _. apply returns_Compile.
Qed.

Lemma returns_buildDependencies (fuel : nat) (pkg : Package) :
  imports_within (within fuel) pkg = true ->
  returns (buildDependencies fuel (build.Imports (p pkg))).
Proof.
  intros Hw. apply returns_range_imports; [apply keeps_buildPackage |].
  intros dep Hin Hstd. apply returns_buildPackage.
  by eapply imports_within_elem.
Qed.

(** *** More fuel changes nothing *)

Lemma bind_inv {A B} (m : M A) (k : A -> M B) (st st' : State) (b : B) :
  bind m k st = Ok b st' ->
  exists a st1, m st = Ok a st1 /\ k a st1 = Ok b st'.
Proof.
  unfold bind. destruct (m st) as [a st1 | |]; [| done | done].
  intros Hk. by exists a, st1.
Qed.

Lemma range_imports_mono (b1 b2 : Package -> M Target)
    (imports : list string) :
  (forall pkg st t st', b1 pkg st = Ok t st' -> b2 pkg st = Ok t st') ->
  forall deps st r st',
    range_imports b1 imports deps st = Ok r st' ->
    range_imports b2 imports deps st = Ok r st'.
Proof.
  intros Hb. induction imports as [| dep imports IH]; intros deps st r st';
    simpl; [done |].
  case_decide; [apply IH |].
  intros Hrun. apply bind_inv in Hrun as (t & st1 & Hb1 & Hrest).
  erewrite bind_Ok by (by apply Hb). by apply IH.
Qed.

Lemma buildPackage_more_fuel (fuel : nat) :
  forall pkg st t st',
    buildPackage fuel pkg st = Ok t st' ->
    buildPackage (S fuel) pkg st = Ok t st'.
Proof.
  induction fuel as [| fuel IH]; intros pkg st t st';
    cbn [buildPackage]; (destruct (pkg_Result pkg) as [err |]; [done |]);
    unfold targetOrMissing, GetOrCreate;
    (destruct (targets st !! compile_key pkg) as [t0 |]; [done |]);
    [done |].
  destruct (bind _ _ st) as [t1 st1 | |] eqn:Hbody; [| done | done].
  intros [= <- <-].
  apply bind_inv in Hbody as (deps & st2 & Hdeps & Hc).
  erewrite bind_Ok by (eapply range_imports_mono; [exact IH | exact Hdeps]).
  by rewrite Hc.
Qed.

Lemma GetOrCreate_registers (name : string) (f : M Target)
    (st st' : State) (t : Target) :
  GetOrCreate name f st = Ok t st' -> targets st' !! name = Some t.
Proof.
  unfold GetOrCreate.
  destruct (targets st !! name) as [t0 |] eqn:Hreg.
  - by intros [= <- <-].
  - destruct (f st) as [t1 st1 | |]; try done.
    intros [= <- <-]. simpl. apply lookup_insert_eq.
Qed.

Lemma Compile_registers (pkg : Package) (deps : list Target)
    (st st' : State) (t : Target) :
  pkg_Result pkg = None ->
  Compile pkg deps st = Ok t st' ->
  targets st' !! compile_key pkg = Some t /\ PkgTarget t = true.
Proof.
  intros Hv. unfold Compile, addTargetIfMissing, bind. rewrite Hv.
  destruct (GetOrCreate _ _ st) as [t1 st1 | |] eqn:Hg; try done.
  unfold assert_PkgTarget. destruct (PkgTarget t1) eqn:Hpt; [| done].
  intros [= <- <-]. split; [by eapply GetOrCreate_registers | done].
Qed.

Lemma buildPackage_registers (fuel : nat) (pkg : Package)
    (st st' : State) (t : Target) :
  pkg_Result pkg = None ->
  buildPackage fuel pkg st = Ok t st' ->
  targets st' !! compile_key pkg = Some t.
Proof.
  intros Hv. destruct fuel; cbn [buildPackage]; rewrite Hv;
    apply GetOrCreate_registers.
Qed.

Lemma buildPackage_registered (fuel : nat) (pkg : Package) (st : State)
    (t : Target) :
  pkg_Result pkg = None ->
  targets st !! compile_key pkg = Some t ->
  buildPackage fuel pkg st = Ok t st.
Proof.
  intros Hv Hreg. destruct fuel; cbn [buildPackage]; rewrite Hv;
    by apply GetOrCreate_hit.
Qed.

(** C3: one target per key.  Whatever [Compile], [buildPackage],
    [buildCommand] and [Build] do, a target once registered stays
    registered under its key and the targets made stay as they are.  A
    first request for a valid unit registers the target it returns
    under the unit's key.  Every later request for a unit with that
    key, by [Compile] or by [buildPackage], from any state grown out of
    the first one, returns that same target and leaves the state as it
    is: nothing is registered and no target is made a second time. *)
Theorem registry_single_future :
  (forall fuel pkg deps st t st',
      Compile pkg deps st = Ok t st'
      \/ buildPackage fuel pkg st = Ok t st'
      \/ buildCommand fuel pkg st = Ok t st'
      \/ Build fuel pkg st = Ok t st' ->
      extends st st')
  /\ (forall fuel pkg deps st t st',
        pkg_Result pkg = None ->
        Compile pkg deps st = Ok t st'
        \/ buildPackage fuel pkg st = Ok t st' ->
        targets st' !! compile_key pkg = Some t)
  /\ (forall fuel pkg pkg' deps deps' st t st1 st2,
        pkg_Result pkg = None ->
        pkg_Result pkg' = None ->
        compile_key pkg' = compile_key pkg ->
        registry_ok st ->
        Compile pkg deps st = Ok t st1
        \/ buildPackage fuel pkg st = Ok t st1 ->
        extends st1 st2 ->
        Compile pkg' deps' st2 = Ok t st2
        /\ (forall fuel', buildPackage fuel' pkg' st2 = Ok t st2)
        /\ made st2 st2 = []).
Proof.
  split; [| split].
  - intros fuel pkg deps st t st' [H | [H | [H | H]]].
    + by destruct (keeps_Compile pkg deps _ _ _ H).
    + by destruct (keeps_buildPackage fuel pkg _ _ _ H).
    + by destruct (keeps_buildCommand fuel pkg _ _ _ H).
    + by destruct (keeps_Build fuel pkg _ _ _ H).
  - intros fuel pkg deps st t st' Hv [H | H].
    + by destruct (Compile_registers pkg deps st st' t Hv H).
    + by eapply buildPackage_registers.
  - intros fuel pkg pkg' deps deps' st t st1 st2 Hv Hv' Hkey Hst Hfirst
      [Hext _].
    assert (Hreg : targets st1 !! compile_key pkg = Some t
                   /\ PkgTarget t = true).
    { destruct Hfirst as [H | H].
      - by eapply Compile_registers.
      - split; [by eapply buildPackage_registers |].
        destruct (keeps_buildPackage fuel pkg _ _ _ H) as [_ Hok].
        by destruct (Hok Hst). }
    destruct Hreg as [Hreg Hpt]. apply Hext in Hreg.
    rewrite <- Hkey in Hreg.
    split; [by apply Compile_registered |].
    split; [intros fuel'; by apply buildPackage_registered |].
    unfold made. apply drop_all.
Qed.

Lemma PkgTarget_not_ld (t : Target) : PkgTarget t = true -> is_ld t = false.
Proof. by destruct t. Qed.

(** C7: [Build] on an import graph of depth at most [fuel].
    [buildPackage] returns a target [t], and [Build] returns a
    Linker-stage exactly when [t.Result()] is nil and the unit is a
    command: then the result is a new [ld] target whose input is [t],
    the only target made after [buildPackage]; in every other case
    [Build] returns [t] itself and makes nothing more. *)
Theorem Build_links_successful_commands
    (fuel : nat) (pkg : Package) (st : State) :
  within fuel pkg = true ->
  registry_ok st ->
  exists t st1 t' st',
    buildPackage fuel pkg st = Ok t st1
    /\ Build fuel pkg st = Ok t' st'
    /\ (is_ld t' = true <->
        Target_Result t = None /\ pkg_isMain pkg = true)
    /\ (Target_Result t = None /\ pkg_isMain pkg = true ->
        t' = ld (length (created st1)) pkg t /\ st' = grown st1 [t'])
    /\ (~ (Target_Result t = None /\ pkg_isMain pkg = true) ->
        t' = t /\ st' = st1).
Proof.
  intros Hw Hst.
  destruct (returns_buildPackage fuel pkg Hw st Hst) as (t & st1 & Hrun).
  destruct (keeps_buildPackage fuel pkg _ _ _ Hrun) as [_ Hok].
  destruct (Hok Hst) as [_ Hpt].
  pose proof (PkgTarget_not_ld t Hpt) as Hld.
  exists t, st1. unfold Build. erewrite bind_Ok by exact Hrun.
  destruct (Target_Result t) as [err |] eqn:Hres.
  - exists t, st1. split_and!; try done.
    + rewrite Hld. split; [done | by intros [? _]].
    + by intros [? _].
  - destruct (pkg_isMain pkg) eqn:Hmain.
    + unfold assert_PkgTarget. rewrite Hpt.
      erewrite bind_Ok by reflexivity. unfold Ld. rewrite alloc_eq.
      eexists _, _. split_and!; try done.
      intros Hn. by destruct Hn.
    + exists t, st1. split_and!; try done.
      * rewrite Hld. split; [done | by intros [_ ?]].
      * by intros [_ ?].
Qed.

(** C8 as the code has it: [buildCommand] on a unit whose imports lead
    into import graphs at most [fuel] deep.  The dependency targets are the ones
    [buildDependencies] gives for the unit's imports: [buildPackage] on
    every import outside [stdlib], in order.  The unit goes through
    [Compile], registry lookup and staleness check included, and a new
    [ld] target over whatever [Compile] returned is the result, with no
    test of the unit being a command and none of the compilation having
    succeeded.  On the first request for the unit's key: a stale valid
    unit gives the linker an installed archive or an installed compiled
    object; a valid unit that is not stale gives it the cached package,
    with no archive and no install; a unit with failed metadata gives
    it the [errTarget]. *)
Theorem buildCommand_links_whatever_Compile_returns
    (fuel : nat) (pkg : Package) (st : State) :
  imports_within (within fuel) pkg = true ->
  registry_ok st ->
  exists deps st1 c st2,
    buildDependencies fuel (build.Imports (p pkg)) st = Ok deps st1
    /\ Compile pkg deps st1 = Ok c st2
    /\ buildCommand fuel pkg st
       = Ok (ld (length (created st2)) pkg c)
            (grown st2 [ld (length (created st2)) pkg c])
    /\ (pkg_Result pkg = None ->
        targets st1 !! compile_key pkg = None ->
        isStale pkg = true ->
        archive_or_passthrough c = true)
    /\ (pkg_Result pkg = None ->
        targets st1 !! compile_key pkg = None ->
        isStale pkg = false ->
        c = cached (length (created st1)) pkg
        /\ made st1 st2 = [c])
    /\ (forall err, pkg_Result pkg = Some err ->
                    c = errTarget ("compile: " +:+ err) /\ st2 = st1).
Proof.
  intros Hw Hst.
  destruct (returns_buildDependencies fuel pkg Hw st Hst)
    as (deps & st1 & Hdeps).
  assert (Hst1 : registry_ok st1).
  { destruct (keeps_range_imports (buildPackage fuel) _ []
                (keeps_buildPackage fuel) _ _ _ Hdeps) as [_ Hok].
    by destruct (Hok Hst). }
  destruct (returns_Compile pkg deps st1 Hst1) as (c & st2 & Hc).
  exists deps, st1, c, st2. split; [done |]. split; [done |].
  split; [| split; [| split]].
  - unfold buildCommand. unfold buildDependencies in Hdeps.
    erewrite bind_Ok by exact Hdeps.
    erewrite bind_Ok by exact Hc.
    unfold Ld. by rewrite alloc_eq.
  - intros Hv Hreg Hs.
    pose proof (Compile_body_stale pkg deps st1 Hs) as Hbody.
    cbv zeta in Hbody.
    destruct (pkg_Complete pkg);
      erewrite Compile_unregistered in Hc by done;
      by injection Hc as <- <-.
  - intros Hv Hreg Hs.
    erewrite Compile_unregistered in Hc;
      [| done | done | by apply Compile_body_fresh | done].
    injection Hc as <- <-.
    split; [done |]. by rewrite made_registered, made_grown.
  - intros err Hv. unfold Compile in Hc. rewrite Hv in Hc.
    by injection Hc as <- <-.
Qed.

End RegistryProperties.

(** ** The scenarios of the specification, run on the concrete world *)

Module Scenario.
Import Fixture.

(** [app] imports [lib] and [util], [lib] imports [util]: [util] is
    built once, and both dependents hold the same target. *)
Example shared_dependency_built_once :
  exists st,
    Build 3 app empty_State
    = Ok (ld 5 app
            (install 4 app
               (gc 3 app ["main.go"]
                  [cached 2 lib; install 1 util (gc 0 util ["u.go"] [])])))
         st
    /\ List.map is_gc (created st)
       = [true; false; false; true; false; false]
    /\ targets st !! "compile::util"
       = Some (install 1 util (gc 0 util ["u.go"] [])).
Proof.
  eexists. split; [vm_compute; reflexivity |].
  split; vm_compute; reflexivity.
Qed.

(** A failing compilation: nothing downstream calls the toolchain. *)
Example failure_short_circuit :
  Target_run (ld 2 broken (install 1 broken (gc 0 broken ["b.go"] [])))
  = ([], Some "gc: exit status 1").
Proof. reflexivity. Qed.

Example test_scope_link :
  Target_run (ld 1 t (cached 0 t))
  = ([TcLd ["/w/pkg"; "/w/x/t/_test"] "/w/x/t/_test/x/t.test"
        "/w/pkg/t.a"], None).
Proof. reflexivity. Qed.

Example out_of_fuel_is_reported : Build 0 app empty_State = OutOfFuel.
Proof. reflexivity. Qed.

End Scenario.

(** ** Instances of the theorems *)

Lemma test_scope_suffix_and_includes_witness :
  Scope Fixture.t = "test"
  /\ @ld_link Fixture.world Fixture.t "/w/pkg/t.a"
     = ([TcLd ["/w/pkg"; "/w/x/t/_test"] "/w/x/t/_test/x/t.test"
           "/w/pkg/t.a"], None).
Proof.
  split; [reflexivity |].
  destruct (proj1 (@test_scope_suffix_and_includes Fixture.world
                     Fixture.t ["t_test.go"] "/w/pkg/t.a") eq_refl)
    as [Hld _].
  rewrite Hld. reflexivity.
Defined.

Lemma pack_pack_first_failure_witness :
  @pack_pack Fixture.world Fixture.objs_fail = ([], Some "asm a.s").
Proof.
  apply (proj1 (@pack_pack_first_failure Fixture.world Fixture.objs_fail)
           [ {| Result := None; Objfile := "/w/p.a" |} ]
           {| Result := Some "asm a.s"; Objfile := "/w/p/a.6" |}
           [ {| Result := Some "asm b.s"; Objfile := "/w/p/b.6" |} ]
           "asm a.s").
  - reflexivity.
  - repeat constructor.
  - reflexivity.
Defined.

Lemma pack_Result_once_witness :
  exists c,
    @exec Fixture.world Fixture.objs_ok
      [CallResult; Produce; Recv 0; CallResult; Send 0; Recv 1; Send 1]
      Pack_cell = Some c
    /\ runs c <= 1
    /\ callers c = [Returned None; Returned None].
Proof.
  eexists. split; [reflexivity |].
  destruct (proj1 (@pack_Result_once Fixture.world Fixture.objs_ok)
              [CallResult; Produce; Recv 0; CallResult; Send 0; Recv 1;
               Send 1] _ eq_refl) as (Hruns & _).
  split; [exact Hruns | reflexivity].
Defined.

Lemma invalid_metadata_fails_fast_witness :
  pkg_Result (Fixture.missing "nope") = Some "no such package"
  /\ @buildPackage Fixture.world 0 (Fixture.missing "nope") empty_State
     = Ok (errTarget "buildPackage: no such package") empty_State.
Proof.
  split; [reflexivity |].
  apply (@invalid_metadata_fails_fast Fixture.world (Fixture.missing "nope")
           "no such package" eq_refl 0 [] empty_State).
Defined.

Lemma fresh_unit_uses_cached_package_witness :
  @isStale Fixture.world Fixture.lib = false
  /\ exists t st',
       @Compile Fixture.world Fixture.lib [] empty_State = Ok t st'
       /\ Forall (fun x => is_stage x = false) (made empty_State st').
Proof.
  split; [reflexivity |].
  destruct (@fresh_unit_uses_cached_package Fixture.world Fixture.lib []
              empty_State eq_refl eq_refl registry_ok_empty)
    as (t & st' & Hrun & Hmade & _).
  exists t, st'. split; assumption.
Defined.

Lemma Compile_archives_unless_complete_witness :
  pkg_Complete Fixture.mixed = false
  /\ exists st',
       @Compile Fixture.world Fixture.mixed [] empty_State
       = Ok (install 3 Fixture.mixed
               (pack 2 Fixture.mixed
                  [gc 0 Fixture.mixed ["m.go"] [];
                   asm 1 Fixture.mixed "foo.s"]))
            st'.
Proof.
  split; [reflexivity |].
  eexists.
  apply (proj2 (@Compile_archives_unless_complete Fixture.world
                  Fixture.mixed [] empty_State eq_refl eq_refl eq_refl)
           eq_refl).
Defined.

Lemma registry_single_future_witness :
  exists t st1,
    @Compile Fixture.world Fixture.util [] empty_State = Ok t st1
    /\ @Compile Fixture.world Fixture.util [errTarget "other"] st1
       = Ok t st1.
Proof.
  eexists _, _. split; [reflexivity |].
  apply (proj2 (proj2 (@registry_single_future Fixture.world))
           0 Fixture.util Fixture.util [] [errTarget "other"]
           empty_State _ _ _ eq_refl eq_refl eq_refl registry_ok_empty
           (or_introl eq_refl) (extends_refl _)).
Defined.

Lemma Build_links_successful_commands_witness :
  @within Fixture.world 3 Fixture.app = true
  /\ exists t st1 t' st',
       @buildPackage Fixture.world 3 Fixture.app empty_State = Ok t st1
       /\ @Build Fixture.world 3 Fixture.app empty_State = Ok t' st'
       /\ (is_ld t' = true <->
           @Target_Result Fixture.world t = None
           /\ pkg_isMain Fixture.app = true).
Proof.
  split; [reflexivity |].
  destruct (@Build_links_successful_commands Fixture.world 3 Fixture.app
              empty_State eq_refl registry_ok_empty)
    as (t & st1 & t' & st' & Hb & HB & Hiff & _).
  exists t, st1, t', st'.
  split; [exact Hb |]. split; [exact HB | exact Hiff].
Defined.

Lemma buildCommand_links_whatever_Compile_returns_witness :
  @imports_within Fixture.world (@within Fixture.world 2) Fixture.app = true
  /\ exists deps st1 c st2,
       @buildDependencies Fixture.world 2
         (build.Imports (p Fixture.app)) empty_State = Ok deps st1
       /\ @Compile Fixture.world Fixture.app deps st1 = Ok c st2
       /\ @buildCommand Fixture.world 2 Fixture.app empty_State
          = Ok (ld (length (created st2)) Fixture.app c)
               (grown st2 [ld (length (created st2)) Fixture.app c]).
Proof.
  split; [reflexivity |].
  destruct (@buildCommand_links_whatever_Compile_returns Fixture.world 2
              Fixture.app empty_State eq_refl registry_ok_empty)
    as (deps & st1 & c & st2 & Hd & Hc & Hb & _).
  exists deps, st1, c, st2. repeat split; assumption.
Defined.

(** ** Where the code departs from the specification *)

(** C1, the second half as the specification has it: a complete unit
    with two assembly files and no Go file.  Three objects are made, the
    compiler's and two assembler's, more than one; no archiver target is
    made, and the compiler's object alone is installed. *)
Lemma complete_unit_with_two_asm_files_is_not_archived :
  pkg_Result Fixture.twoasm = None
  /\ @isStale Fixture.world Fixture.twoasm = true
  /\ pkg_Complete Fixture.twoasm = true
  /\ exists st',
       @Compile Fixture.world Fixture.twoasm [] empty_State
       = Ok (install 3 Fixture.twoasm (gc 0 Fixture.twoasm [] [])) st'
       /\ created st'
          = [gc 0 Fixture.twoasm [] [];
             asm 1 Fixture.twoasm "a.s";
             asm 2 Fixture.twoasm "b.s";
             install 3 Fixture.twoasm (gc 0 Fixture.twoasm [] [])]
       /\ 1 < length (filter (fun x => is_gc x || is_asm x) (created st'))
       /\ ~ (exists x, x ∈ created st' /\ is_pack x = true).
Proof.
  split; [reflexivity |]. split; [reflexivity |]. split; [reflexivity |].
  eexists. split; [reflexivity |]. split; [reflexivity |].
  split; [vm_compute; lia |].
  intros (x & Hin & Hpack). simpl in Hin.
  repeat (apply elem_of_cons in Hin as [-> | Hin]; [discriminate |]).
  by apply elem_of_nil in Hin.
Qed.

(** C8 as the specification has it: [buildCommand] on a unit that is not
    stale.  [Compile] takes the staleness short cut, so the linker is put
    on the cached package: no compiler target, no archive and no install
    is made for the unit. *)
Lemma buildCommand_of_fresh_unit_takes_the_cache_shortcut :
  pkg_Result Fixture.lib = None
  /\ @isStale Fixture.world Fixture.lib = false
  /\ exists st',
       @buildCommand Fixture.world 1 Fixture.lib empty_State
       = Ok (ld 3 Fixture.lib (cached 2 Fixture.lib)) st'
       /\ created st'
          = [gc 0 Fixture.util ["u.go"] [];
             install 1 Fixture.util (gc 0 Fixture.util ["u.go"] []);
             cached 2 Fixture.lib;
             ld 3 Fixture.lib (cached 2 Fixture.lib)]
       /\ archive_or_passthrough (cached 2 Fixture.lib) = false.
Proof.
  split; [reflexivity |]. split; [reflexivity |].
  eexists. split; [reflexivity |]. split; reflexivity.
Qed.

(** * Further properties of build.go *)

(** ** [stripext] *)

Section StripextProperties.

Lemma ext_scan_suffix (rpath acc : list ascii) :
  exists pre, rev rpath ++ acc = pre ++ filepath.ext_scan rpath acc.
Proof.
  revert acc. induction rpath as [| c rest IH]; intros acc; simpl.
  - exists acc. by rewrite app_nil_r.
  - rewrite <- app_assoc. simpl.
    destruct (filepath.IsPathSeparator c).
    + eexists. by rewrite app_nil_r.
    + destruct (Ascii.eqb c "."); [by exists (rev rest) | apply IH].
Qed.

Lemma ext_scan_no_dot (rpath acc : list ascii) :
  Forall (fun c => c <> "."%char) rpath ->
  filepath.ext_scan rpath acc = [].
Proof.
  revert acc. induction rpath as [| c rest IH]; intros acc Hall; simpl;
    [done |].
  inversion Hall as [| ? ? Hc Hrest]; subst.
  destruct (filepath.IsPathSeparator c); [done |].
  destruct (Ascii.eqb_spec c "."); [done | by apply IH].
Qed.

Lemma length_string_of_list_ascii (l : list ascii) :
  String.length (string_of_list_ascii l) = length l.
Proof. induction l as [| c l IH]; simpl; [done | by rewrite IH]. Qed.

Lemma length_list_ascii_of_string (s : string) :
  length (list_ascii_of_string s) = String.length s.
Proof. induction s as [| c s IH]; simpl; [done | by rewrite IH]. Qed.

Lemma Ext_length_le (path : string) :
  String.length (filepath.Ext path) <= String.length path.
Proof.
  unfold filepath.Ext. rewrite length_string_of_list_ascii.
  destruct (ext_scan_suffix (rev (list_ascii_of_string path)) [])
    as [pre Hpre].
  rewrite rev_involutive, app_nil_r in Hpre.
  apply (f_equal length) in Hpre.
  rewrite length_app, length_list_ascii_of_string in Hpre. lia.
Qed.

Lemma no_dot_Forall (s : string) :
  no_dot s = true ->
  Forall (fun c => c <> "."%char) (list_ascii_of_string s).
Proof.
  induction s as [| c s IH]; simpl; [constructor |].
  intros [Hc Hs]%andb_true_iff. constructor; [| by apply IH].
  intros ->. by rewrite Ascii.eqb_refl in Hc.
Qed.

Lemma length_substring_0 (n : nat) (s : string) :
  String.length (String.substring 0 n s) = Nat.min n (String.length s).
Proof.
  revert n. induction s as [| c s IH]; intros [| n]; simpl; try done.
  by rewrite IH.
Qed.

Lemma substring_0_prefix (n : nat) (s : string) :
  exists rest, s = String.substring 0 n s +:+ rest.
Proof.
  revert n. induction s as [| c s IH]; intros [| n]; simpl.
  - by exists "".
  - by exists "".
  - by exists (String c s).
  - destruct (IH n) as [rest Hrest]. exists rest.
    change (String c s = String c (String.substring 0 n s +:+ rest)).
    by f_equal.
Qed.

(** The slice [path[:len(ext)]] of [stripext] is always in range: the
    extension is a suffix of the path, so it is no longer than the path.
    The result is the prefix of [path] that is as long as the extension,
    whatever the length of the name before the extension. *)
Theorem stripext_is_prefix_of_extension_length (path : string) :
  String.length (filepath.Ext path) <= String.length path
  /\ String.length (stripext path) = String.length (filepath.Ext path)
  /\ exists rest, path = stripext path +:+ rest.
Proof.
  pose proof (Ext_length_le path) as Hle.
  split; [done |]. split.
  - unfold stripext. rewrite length_substring_0. lia.
  - apply substring_0_prefix.
Qed.

(** [stripext] gives the path without its extension exactly when the
    path is twice as long as its extension, that is when the name before
    the extension happens to be as long as the extension. *)
Theorem stripext_strips_iff_name_as_long_as_extension (path : string) :
  stripext path = path_without_ext path
  <-> String.length path = 2 * String.length (filepath.Ext path).
Proof.
  pose proof (Ext_length_le path) as Hle.
  unfold stripext, path_without_ext. split.
  - intros Heq. apply (f_equal String.length) in Heq.
    rewrite !length_substring_0 in Heq. lia.
  - intros Hlen.
    replace (String.length path - String.length (filepath.Ext path))
      with (String.length (filepath.Ext path)) by lia.
    done.
Qed.

(** An assembly file whose name has no dot has the empty extension, so
    [stripext] keeps nothing of the name: the object file of every such
    file is [.6] below the work directory and the import path. *)
Theorem asm_Objfile_without_extension `{W : World}
    (pkg : Package) (sfile : string) :
  no_dot sfile = true ->
  filepath.Ext sfile = ""
  /\ stripext sfile = ""
  /\ asm_Objfile pkg sfile
     = filepath.Join [workdir; build.ImportPath (p pkg); ".6"].
Proof.
  intros Hnd.
  assert (Hext : filepath.Ext sfile = "").
  { unfold filepath.Ext. rewrite ext_scan_no_dot; [done |].
    apply Forall_rev. by apply no_dot_Forall. }
  split; [done |].
  assert (Hs : stripext sfile = "").
  { unfold stripext. rewrite Hext. simpl. by destruct sfile. }
  split; [done |]. unfold asm_Objfile. by rewrite Hs.
Qed.

End StripextProperties.

(** ** The registry key *)

Section KeyProperties.
Context `{W : World}.

Lemma append_nil_l (s : string) : "" +:+ s = s.
Proof. reflexivity. Qed.

Lemma append_cons_l (c : ascii) (s1 s2 : string) :
  String c s1 +:+ s2 = String c (s1 +:+ s2).
Proof. reflexivity. Qed.

Lemma append_colon_inj (s1 s2 p1 p2 : string) :
  no_colon s1 = true -> no_colon s2 = true ->
  s1 +:+ ":" +:+ p1 = s2 +:+ ":" +:+ p2 ->
  s1 = s2 /\ p1 = p2.
Proof.
  revert s2. induction s1 as [| c1 s1 IH]; intros [| c2 s2];
    repeat (rewrite append_nil_l || rewrite append_cons_l); cbn [no_colon].
  - by intros _ _ [= ->].
  - intros _ [Hc _]%andb_true_iff [= <- _].
    by rewrite Ascii.eqb_refl in Hc.
  - intros [Hc _]%andb_true_iff _ [= -> _].
    by rewrite Ascii.eqb_refl in Hc.
  - intros [_ H1]%andb_true_iff [_ H2]%andb_true_iff [= -> Hrest].
    destruct (IH s2 H1 H2 Hrest) as [-> ->]. done.
Qed.

(** Two units whose scopes hold no colon share a registry key only if
    they have the same scope and the same import path: a unit and its
    test-scope variant never share a registered target. *)
Theorem compile_key_separates_scopes (pkg pkg' : Package) :
  no_colon (Scope pkg) = true ->
  no_colon (Scope pkg') = true ->
  compile_key pkg = compile_key pkg' <->
  Scope pkg = Scope pkg'
  /\ build.ImportPath (p pkg) = build.ImportPath (p pkg').
Proof.
  intros H1 H2. unfold compile_key. split.
  - intros Hkey.
    repeat (rewrite append_nil_l in Hkey || rewrite append_cons_l in Hkey).
    injection Hkey as Hkey. by apply append_colon_inj.
  - by intros [-> ->].
Qed.

End KeyProperties.

(** ** The import loop *)

Section ImportProperties.
Context `{W : World}.

Lemma range_imports_filter (build1 : Package -> M Target)
    (imports : list string) (deps : list Target) (st : State) :
  range_imports build1 imports deps st
  = range_imports build1 (filter (fun dep => dep ∉ stdlib) imports) deps st.
Proof.
  revert deps st. induction imports as [| dep imports IH]; intros deps st;
    [done |].
  cbn [range_imports]. case_decide as Hstd.
  - rewrite filter_cons_False by (by intros ?). apply IH.
  - rewrite filter_cons_True by done. cbn [range_imports].
    rewrite decide_False by done. unfold bind.
    destruct (build1 (resolvePackage dep) st); [apply IH | done | done].
Qed.

Lemma range_imports_length (build1 : Package -> M Target)
    (imports : list string) (deps r : list Target) (st st' : State) :
  range_imports build1 imports deps st = Ok r st' ->
  length r = length deps + length (filter (fun dep => dep ∉ stdlib) imports).
Proof.
  revert deps st. induction imports as [| dep imports IH]; intros deps st.
  - intros [= <- <-]. simpl. lia.
  - cbn [range_imports]. case_decide as Hstd.
    + rewrite filter_cons_False by (by intros ?). apply IH.
    + rewrite filter_cons_True by done. intros Hrun.
      apply bind_inv in Hrun as (t & st1 & _ & Hrest).
      apply IH in Hrest. rewrite length_app in Hrest. simpl in *. lia.
Qed.

Lemma range_imports_all_stdlib (build1 : Package -> M Target)
    (imports : list string) (deps : list Target) (st : State) :
  Forall (fun dep => dep ∈ stdlib) imports ->
  range_imports build1 imports deps st = Ok deps st.
Proof.
  induction 1 as [| dep imports Hd _ IH]; cbn [range_imports]; [done |].
  by rewrite decide_True.
Qed.

(** [buildDependencies] prunes the standard library: the imports in
    [stdlib] contribute nothing, so the call is the same as on the list
    without them, in the same order.  When it returns there is one
    target per import outside [stdlib], and when every import is in
    [stdlib] it returns no target and leaves the state alone, without
    resolving any package. *)
Theorem buildDependencies_prunes_stdlib
    (fuel : nat) (imports : list string) (st : State) :
  buildDependencies fuel imports st
  = buildDependencies fuel (filter (fun dep => dep ∉ stdlib) imports) st
  /\ (forall deps st',
        buildDependencies fuel imports st = Ok deps st' ->
        length deps = length (filter (fun dep => dep ∉ stdlib) imports))
  /\ (Forall (fun dep => dep ∈ stdlib) imports ->
      buildDependencies fuel imports st = Ok [] st).
Proof.
  unfold buildDependencies. split; [apply range_imports_filter |]. split.
  - intros deps st' Hrun. by apply range_imports_length in Hrun.
  - intros Hall. by apply range_imports_all_stdlib.
Qed.

(** A unit whose first import outside [stdlib] resolves to the unit
    itself: [buildPackage] builds the dependencies before the unit's key
    is registered, so it enters the unit again and again; no recursion
    budget is enough. *)
Theorem self_import_never_returns
    (pkg : Package) (pre post : list string) (dep : string) (st : State) :
  pkg_Result pkg = None ->
  targets st !! compile_key pkg = None ->
  build.Imports (p pkg) = pre ++ dep :: post ->
  Forall (fun d => d ∈ stdlib) pre ->
  dep ∉ stdlib ->
  resolvePackage dep = pkg ->
  forall fuel, buildPackage fuel pkg st = OutOfFuel.
Proof.
  intros Hv Hreg Himp Hpre Hdep Hres fuel.
  induction fuel as [| fuel IH]; cbn [buildPackage]; rewrite Hv;
    unfold targetOrMissing, GetOrCreate; rewrite Hreg; [done |].
  assert (Hloop : forall deps,
    range_imports (buildPackage fuel) (build.Imports (p pkg)) deps st
    = OutOfFuel).
  { rewrite Himp. clear Himp. intros deps.
    induction Hpre as [| d pre Hd _ IHpre]; cbn [app range_imports].
    - rewrite decide_False by done. unfold bind. by rewrite Hres, IH.
    - by rewrite decide_True. }
  unfold bind. by rewrite Hloop.
Qed.

End ImportProperties.

(** ** [Compile] and the registry *)

Section MoreCompileProperties.
Context `{W : World}.

Lemma Compile_body_returns (pkg : Package) (deps : list Target) (st : State) :
  exists t st',
    Compile_body pkg deps st = Ok t st'
    /\ final_artifact t = true
    /\ targets st' = targets st.
Proof.
  destruct (isStale pkg) eqn:Hs.
  - pose proof (Compile_body_stale pkg deps st Hs) as Hbody.
    cbv zeta in Hbody.
    destruct (pkg_Complete pkg); eexists _, _; by split.
  - eexists _, _. split; [by apply Compile_body_fresh | done].
Qed.

Lemma Compile_foreign_entry (pkg : Package) (deps : list Target)
    (st : State) (t0 : Target) :
  pkg_Result pkg = None ->
  targets st !! compile_key pkg = Some t0 ->
  PkgTarget t0 = false ->
  Compile pkg deps st = Panic.
Proof.
  intros Hv Hreg Hpt. unfold Compile, addTargetIfMissing. rewrite Hv.
  erewrite bind_Ok by (by apply GetOrCreate_hit).
  unfold assert_PkgTarget. by rewrite Hpt.
Qed.

(** [Compile] needs no recursion budget, and its index [objs[0]] and the
    type assertion on it never fail.  It panics in one case only: the
    unit's metadata is valid and the registry holds under the unit's key
    a target without [Pkgfile()], where the final [.(PkgTarget)] fails.
    In every other case it returns a target with [Pkgfile()]. *)
Theorem Compile_panics_only_on_foreign_registry_entry
    (pkg : Package) (deps : list Target) (st : State) :
  Compile pkg deps st <> OutOfFuel
  /\ (Compile pkg deps st = Panic <->
      pkg_Result pkg = None
      /\ exists t0, targets st !! compile_key pkg = Some t0
                    /\ PkgTarget t0 = false)
  /\ (forall t st', Compile pkg deps st = Ok t st' -> PkgTarget t = true).
Proof.
  assert (Hcases :
    (exists t st', Compile pkg deps st = Ok t st' /\ PkgTarget t = true)
    \/ (pkg_Result pkg = None
        /\ exists t0, targets st !! compile_key pkg = Some t0
                      /\ PkgTarget t0 = false)).
  { destruct (pkg_Result pkg) as [err |] eqn:Hv.
    { left. eexists _, _. unfold Compile. by rewrite Hv. }
    destruct (targets st !! compile_key pkg) as [t0 |] eqn:Hreg.
    - destruct (PkgTarget t0) eqn:Hpt.
      + left. exists t0, st. split; [by apply Compile_registered | done].
      + right. by eauto.
    - left. destruct (Compile_body_returns pkg deps st)
        as (t & st' & Hbody & Hfin & _).
      assert (Hpt : PkgTarget t = true) by (by destruct t).
      eexists _, _. split; [by eapply Compile_unregistered | done]. }
  destruct Hcases as [(t & st' & Hrun & Hpt) | (Hv & t0 & Hreg & Hpt0)].
  - rewrite Hrun. split; [done |]. split.
    + split; [done |]. intros (Hv & t0 & Hreg & Hpt0).
      by rewrite (Compile_foreign_entry pkg deps st t0 Hv Hreg Hpt0) in Hrun.
    + by intros ? ? [= <- <-].
  - rewrite (Compile_foreign_entry pkg deps st t0 Hv Hreg Hpt0).
    split; [done |]. split; [| done]. split; [by eauto | done].
Qed.

(** *** Only finished artifacts are registered *)

Lemma registry_final_registered (st : State) (name : string) (t : Target) :
  registry_final st -> final_artifact t = true ->
  registry_final (registered name t st).
Proof.
  intros Hok Ht name' t'. unfold registered; simpl.
  rewrite lookup_insert. case_decide; [by intros [= <-] | apply Hok].
Qed.

Lemma Compile_registry_final (pkg : Package) (deps : list Target)
    (st st' : State) (t : Target) :
  Compile pkg deps st = Ok t st' ->
  registry_final st ->
  registry_final st' /\ (pkg_Result pkg = None -> final_artifact t = true).
Proof.
  intros Hrun Hfin.
  destruct (pkg_Result pkg) as [err |] eqn:Hv.
  { unfold Compile in Hrun. rewrite Hv in Hrun.
    injection Hrun as <- <-. by split. }
  destruct (targets st !! compile_key pkg) as [t0 |] eqn:Hreg.
  - assert (Hf0 : final_artifact t0 = true) by (by eapply Hfin).
    rewrite (Compile_registered pkg deps st t0 Hv Hreg) in Hrun
      by (by destruct t0).
    injection Hrun as <- <-. by split.
  - destruct (Compile_body_returns pkg deps st)
      as (t1 & st1 & Hbody & Hf1 & Hts).
    rewrite (Compile_unregistered pkg deps st st1 t1 Hv Hreg Hbody) in Hrun
      by (by destruct t1).
    injection Hrun as <- <-. split; [| done].
    apply registry_final_registered; [| done].
    intros name x. rewrite Hts. apply Hfin.
Qed.

Lemma range_imports_registry_final (build1 : Package -> M Target)
    (imports : list string) :
  (forall pkg st t st',
      build1 pkg st = Ok t st' -> registry_final st -> registry_final st') ->
  forall deps st r st',
    range_imports build1 imports deps st = Ok r st' ->
    registry_final st -> registry_final st'.
Proof.
  intros Hb. induction imports as [| dep imports IH]; intros deps st r st';
    cbn [range_imports].
  - by intros [= <- <-].
  - case_decide; [apply IH |].
    intros Hrun Hfin. apply bind_inv in Hrun as (t & st1 & Hb1 & Hrest).
    eapply IH; [exact Hrest |]. by eapply Hb.
Qed.

Lemma buildPackage_registry_final (fuel : nat) :
  forall pkg st t st',
    buildPackage fuel pkg st = Ok t st' ->
    registry_final st ->
    registry_final st' /\ (pkg_Result pkg = None -> final_artifact t = true).
Proof.
  induction fuel as [| fuel IH]; intros pkg st t st';
    cbn [buildPackage]; (destruct (pkg_Result pkg) as [err |] eqn:Hv;
                         [by intros [= <- <-] |]);
    unfold targetOrMissing, GetOrCreate;
    (destruct (targets st !! compile_key pkg) as [t0 |] eqn:Hreg;
     [intros [= <- <-] Hfin; split; [done | intros _; by eapply Hfin] |]);
    [done |].
  destruct (bind _ _ st) as [t1 st1 | |] eqn:Hbody; [| done | done].
  intros [= <- <-] Hfin.
  apply bind_inv in Hbody as (deps & st2 & Hdeps & Hc).
  assert (Hfin2 : registry_final st2).
  { eapply range_imports_registry_final; [| exact Hdeps | exact Hfin].
    intros q s x s' Hq Hs. by destruct (IH q s x s' Hq Hs). }
  destruct (Compile_registry_final pkg deps st2 st1 t1 Hc Hfin2)
    as [Hfin1 Hft].
  split; [| intros _; by apply Hft].
  apply registry_final_registered; [done | by apply Hft].
Qed.

(** The registry holds finished artifacts only.  If every registered
    target is a cached package or an installed artifact, this is still
    so after [Compile], [buildPackage], [buildCommand] and [Build]: no
    [errTarget], no compiler, assembler, archiver or linker target is
    ever registered, so a failed metadata result is looked at again on
    every request and a linker target is never shared.  Moreover a valid
    unit always gets such a finished artifact from [Compile] and
    [buildPackage]. *)
Theorem registry_holds_finished_artifacts_only
    (fuel : nat) (pkg : Package) (deps : list Target)
    (st st' : State) (t : Target) :
  registry_final st ->
  (Compile pkg deps st = Ok t st'
   \/ buildPackage fuel pkg st = Ok t st'
   \/ buildCommand fuel pkg st = Ok t st'
   \/ Build fuel pkg st = Ok t st' ->
   registry_final st')
  /\ (pkg_Result pkg = None ->
      Compile pkg deps st = Ok t st' \/ buildPackage fuel pkg st = Ok t st' ->
      final_artifact t = true).
Proof.
  intros Hfin. split.
  - intros [Hrun | [Hrun | [Hrun | Hrun]]].
    + by destruct (Compile_registry_final _ _ _ _ _ Hrun Hfin).
    + by destruct (buildPackage_registry_final _ _ _ _ _ Hrun Hfin).
    + unfold buildCommand in Hrun.
      apply bind_inv in Hrun as (ds & st1 & Hdeps & Hrun).
      apply bind_inv in Hrun as (c & st2 & Hc & Hld).
      unfold Ld in Hld. rewrite alloc_eq in Hld. injection Hld as <- <-.
      assert (Hfin1 : registry_final st1).
      { eapply range_imports_registry_final; [| exact Hdeps | exact Hfin].
        intros q s x s' Hq Hs.
        by destruct (buildPackage_registry_final _ _ _ _ _ Hq Hs). }
      by destruct (Compile_registry_final _ _ _ _ _ Hc Hfin1).
    + unfold Build in Hrun.
      apply bind_inv in Hrun as (t1 & st1 & Hb & Hrun).
      destruct (buildPackage_registry_final _ _ _ _ _ Hb Hfin)
        as [Hfin1 Hf1].
      destruct (Target_Result t1); [by injection Hrun as <- <- |].
      destruct (pkg_isMain pkg); [| by injection Hrun as <- <-].
      apply bind_inv in Hrun as (t2 & st2 & Ha & Hld).
      unfold assert_PkgTarget in Ha.
      destruct (PkgTarget t1); [| done]. injection Ha as <- <-.
      unfold Ld in Hld. rewrite alloc_eq in Hld. by injection Hld as <- <-.
  - intros Hv [Hrun | Hrun].
    + destruct (Compile_registry_final _ _ _ _ _ Hrun Hfin) as [_ Hf].
      by apply Hf.
    + destruct (buildPackage_registry_final _ _ _ _ _ Hrun Hfin) as [_ Hf].
      by apply Hf.
Qed.

End MoreCompileProperties.

(** ** What [Compile] wires together *)

Section WiringProperties.
Context `{W : World}.

Lemma asm_targets_Objfile (n : nat) (pkg : Package) (sfiles : list string) :
  List.map Target_Objfile (asm_targets n pkg sfiles)
  = List.map (asm_Objfile pkg) sfiles.
Proof.
  revert n. induction sfiles as [| s sfiles IH]; intros n; simpl;
    [done | by rewrite IH].
Qed.

Lemma pack_run_all_ok (id : nat) (pkg : Package) (objs : list Target) :
  Forall (fun o => Target_Result o = None) objs ->
  Target_run (pack id pkg objs)
  = call (TcPack (List.map Target_Objfile objs)).
Proof.
  intros Hall. cbn [Target_run]. unfold pack_pack.
  rewrite pack_loop_all_ok.
  - by rewrite List.map_map.
  - apply Forall_forall. intros o Hin.
    apply list_elem_of_In, in_map_iff in Hin as (x & <- & Hx).
    rewrite Forall_forall in Hall. apply Hall. by apply list_elem_of_In.
Qed.

(** The archive of a stale unit that is not complete, on the first
    request for its key.  [Compile] installs a [pack] target whose
    inputs are the compiler target followed by one assembler target per
    assembly file, in the order of [SFiles].  When all of them succeed,
    the archiver's single toolchain call lists the compiled package file
    first and then the assembler objects in that order; the archive's
    own [Pkgfile()] is that first file. *)
Theorem archive_lists_compiled_object_first
    (pkg : Package) (deps : list Target) (st : State) :
  pkg_Result pkg = None ->
  isStale pkg = true ->
  pkg_Complete pkg = false ->
  targets st !! compile_key pkg = None ->
  exists id objs a st',
    Compile pkg deps st = Ok (install (S id) pkg a) st'
    /\ a = pack id pkg objs
    /\ List.map Target_Objfile objs
       = gc_Objfile pkg :: List.map (asm_Objfile pkg) (build.SFiles (p pkg))
    /\ (Forall (fun o => Target_Result o = None) objs ->
        Target_run a
        = call (TcPack (gc_Objfile pkg
                        :: List.map (asm_Objfile pkg)
                             (build.SFiles (p pkg)))))
    /\ Target_Pkgfile a = gc_Objfile pkg.
Proof.
  intros Hv Hs Hc Hreg.
  pose proof (Compile_body_stale pkg deps st Hs) as Hbody.
  cbv zeta in Hbody. rewrite Hc in Hbody.
  eexists _, _, _, _. split; [by eapply Compile_unregistered |].
  split; [reflexivity |].
  assert (Hfiles :
    List.map Target_Objfile
      (gc (length (created st)) pkg (build.GoFiles (p pkg)) deps
       :: asm_targets (S (length (created st))) pkg (build.SFiles (p pkg)))
    = gc_Objfile pkg :: List.map (asm_Objfile pkg) (build.SFiles (p pkg))).
  { cbn [List.map Target_Objfile]. by rewrite asm_targets_Objfile. }
  split; [exact Hfiles |]. split; [| done].
  intros Hall. by rewrite pack_run_all_ok, Hfiles.
Qed.

(** Archived or not, the artifact of a stale unit is at the same place:
    on the first request for the unit's key the target that [Compile]
    hands to [Install] has the package file
    [filepath.Join(objdir(pkg), pkg.Name()+".a")], whether it is the
    compiler target of a complete unit or the archive of the others. *)
Theorem installed_artifact_is_the_package_file
    (pkg : Package) (deps : list Target) (st : State) :
  pkg_Result pkg = None ->
  isStale pkg = true ->
  targets st !! compile_key pkg = None ->
  exists id a st',
    Compile pkg deps st = Ok (install id pkg a) st'
    /\ Target_Pkgfile a
       = filepath.Join [objdir pkg; pkg_Name pkg +:+ ".a"]
    /\ (is_pack a = true <-> pkg_Complete pkg = false).
Proof.
  intros Hv Hs Hreg.
  pose proof (Compile_body_stale pkg deps st Hs) as Hbody.
  cbv zeta in Hbody.
  destruct (pkg_Complete pkg); eexists _, _, _;
    (split; [by eapply Compile_unregistered |]); by split.
Qed.

(** The dependencies of a unit that is not stale are built all the same:
    [buildPackage] walks the imports first and only then lets [Compile]
    find the unit up to date.  The result is the cached package, made
    after the targets of the dependencies and holding none of them. *)
Theorem fresh_unit_still_builds_its_dependencies
    (fuel : nat) (pkg : Package) (st st1 : State) (deps : list Target) :
  pkg_Result pkg = None ->
  isStale pkg = false ->
  targets st !! compile_key pkg = None ->
  buildDependencies fuel (build.Imports (p pkg)) st = Ok deps st1 ->
  targets st1 !! compile_key pkg = None ->
  let c := cached (length (created st1)) pkg in
  buildPackage (S fuel) pkg st
  = Ok c (registered (compile_key pkg) c (grown st1 [c]))
  /\ made st (grown st1 [c]) = made st st1 ++ [c].
Proof.
  intros Hv Hs Hreg Hdeps Hreg1 c. split.
  - cbn [buildPackage]. rewrite Hv. unfold targetOrMissing.
    erewrite GetOrCreate_miss; [| done |].
    2:{ unfold buildDependencies in Hdeps.
        erewrite bind_Ok by exact Hdeps.
        eapply Compile_unregistered;
          [done | done | by apply Compile_body_fresh | done]. }
    f_equal. unfold registered; simpl. f_equal.
    apply insert_insert_eq.
  - unfold made, grown; simpl.
    destruct (keeps_range_imports (buildPackage fuel) _ []
                (keeps_buildPackage fuel) _ _ _ Hdeps) as [[_ Hpre] _].
    destruct Hpre as [ts Hts]. rewrite Hts, <- app_assoc.
    by rewrite !drop_app_length.
Qed.

(** Linking is not shared.  When [Build] has linked a command, a second
    [Build] of the same unit finds the registered package target, builds
    nothing again, and makes a second linker target over it: the two
    linker targets are different targets with the same input. *)
Theorem Build_links_again
    (fuel : nat) (pkg : Package) (st st1 : State) (t : Target) :
  pkg_Result pkg = None ->
  registry_ok st ->
  buildPackage fuel pkg st = Ok t st1 ->
  Target_Result t = None ->
  pkg_isMain pkg = true ->
  let l1 := ld (length (created st1)) pkg t in
  let l2 := ld (S (length (created st1))) pkg t in
  Build fuel pkg st = Ok l1 (grown st1 [l1])
  /\ (forall fuel',
        Build fuel' pkg (grown st1 [l1]) = Ok l2 (grown st1 [l1; l2]))
  /\ l1 <> l2.
Proof.
  intros Hv Hst Hrun Hres Hmain l1 l2.
  destruct (keeps_buildPackage fuel pkg _ _ _ Hrun) as [_ Hok].
  destruct (Hok Hst) as [_ Hpt].
  assert (Hlink : forall s,
    (match Target_Result t with
     | Some _ => ret t
     | None =>
         if pkg_isMain pkg
         then bind (assert_PkgTarget t) (fun t' => Ld pkg t')
         else ret t
     end) s
    = Ok (ld (length (created s)) pkg t)
         (grown s [ld (length (created s)) pkg t])).
  { intros s. rewrite Hres, Hmain. unfold assert_PkgTarget. rewrite Hpt.
    erewrite bind_Ok by reflexivity. unfold Ld. by rewrite alloc_eq. }
  split; [| split].
  - unfold Build. erewrite bind_Ok by exact Hrun. apply Hlink.
  - intros fuel'. unfold Build.
    erewrite bind_Ok.
    2:{ apply buildPackage_registered; [done |].
        unfold grown; simpl. by eapply buildPackage_registers. }
    rewrite Hlink, grown_grown, length_created_grown. simpl.
    by rewrite Nat.add_1_r.
  - subst l1 l2. intros [= Hid]. lia.
Qed.

End WiringProperties.

(** ** More on the channel cell *)

Section MoreCellProperties.
Context `{W : World}.

Lemma step_without_Produce (objs : list ObjTarget) (a : Action)
    (c c' : Cell) :
  a <> Produce -> step objs a c = Some c' -> sent c' = sent c.
Proof.
  destruct a as [| | i | i]; [done | | |]; intros _; simpl.
  - by intros [= <-].
  - destruct (callers c !! i) as [[| e | e] |]; try done.
    destruct (chan c); [| done]. by intros [= <-].
  - destruct (callers c !! i) as [[| e | e] |]; try done.
    destruct (chan c); [done |]. by intros [= <-].
Qed.

Lemma exec_without_Produce (objs : list ObjTarget) (sched : list Action)
    (c c' : Cell) :
  Produce ∉ sched -> exec objs sched c = Some c' -> sent c' = sent c.
Proof.
  revert c. induction sched as [| a sched IH]; intros c Hnp; simpl.
  - by intros [= <-].
  - destruct (step objs a c) as [c1 |] eqn:Hstep; [| done].
    intros Hexec. rewrite (IH c1); [| set_solver | done].
    eapply step_without_Produce; [| done]. set_solver.
Qed.

(** [Result()] waits for the producer: as long as the goroutine of
    [pack.pack] has not sent, the buffer is empty, every caller is still
    at its receive, which is blocked, and no toolchain call has been
    made. *)
Theorem Result_waits_for_the_producer
    (objs : list ObjTarget) (sched : list Action) (c : Cell) :
  Produce ∉ sched ->
  exec objs sched Pack_cell = Some c ->
  chan c = None
  /\ calls c = []
  /\ Forall (fun k => k = AtRecv) (callers c)
  /\ forall i, step objs (Recv i) c = None.
Proof.
  intros Hnp Hexec.
  pose proof (exec_without_Produce objs sched _ _ Hnp Hexec) as Hsent.
  pose proof (cell_inv_exec objs sched _ c (cell_inv_init objs) Hexec)
    as Hinv.
  unfold cell_inv in Hinv. rewrite Hsent in Hinv. simpl in Hinv.
  destruct Hinv as (_ & Hcalls & Hchan & Hks).
  split_and!; try done.
  intros i. simpl. rewrite Hchan. by destruct (callers c !! i) as [[] |].
Qed.

Lemma holders_two (ks : list Caller) (i j : nat) (e e' : error) :
  i <> j ->
  ks !! i = Some (AtSend e) -> ks !! j = Some (AtSend e') ->
  2 <= holders ks.
Proof.
  intros Hij Hi Hj.
  pose proof (holders_insert ks i _ AtRecv Hi) as H1. simpl in H1.
  assert (Hj' : <[i := AtRecv]> ks !! j = Some (AtSend e'))
    by (by rewrite list_lookup_insert_ne).
  pose proof (holders_insert _ j _ AtRecv Hj') as H2. simpl in H2. lia.
Qed.

(** The send in [Result()] never blocks, and callers pass the value on
    one at a time: when a caller stands between its receive and its
    send, the buffer is empty, no other caller stands there, the value
    it holds is the producer's, and its send can go ahead. *)
Theorem Result_send_back_never_blocks
    (objs : list ObjTarget) (sched : list Action) (c : Cell)
    (i : nat) (err : error) :
  exec objs sched Pack_cell = Some c ->
  callers c !! i = Some (AtSend err) ->
  chan c = None
  /\ err = (pack_pack objs).2
  /\ (forall j err', callers c !! j = Some (AtSend err') -> j = i)
  /\ exists c', step objs (Send i) c = Some c'
                /\ chan c' = Some (pack_pack objs).2.
Proof.
  intros Hexec Hi.
  pose proof (cell_inv_exec objs sched _ c (cell_inv_init objs) Hexec)
    as Hinv.
  unfold cell_inv, in_buffer in Hinv. destruct (sent c).
  - destruct Hinv as (_ & _ & Hone & _ & Hks).
    pose proof (holders_insert (callers c) i _ AtRecv Hi) as Hh.
    simpl in Hh.
    assert (Hchan : chan c = None).
    { destruct (chan c); [lia | done]. }
    assert (Herr : err = (pack_pack objs).2).
    { rewrite Forall_lookup in Hks. exact (Hks i _ Hi). }
    rewrite Hchan in Hone. split_and!; try done.
    + intros j err' Hj. destruct (decide (j = i)) as [| Hne]; [done |].
      pose proof (holders_two (callers c) j i _ _ Hne Hj Hi). lia.
    + simpl. rewrite Hi, Hchan. eexists. split; [done |]. simpl.
      by rewrite Herr.
  - destruct Hinv as (_ & _ & _ & Hks).
    rewrite Forall_lookup in Hks. by specialize (Hks i _ Hi).
Qed.

End MoreCellProperties.

(** ** [buildCommand] against [Build] *)

Section CommandProperties.
Context `{W : World}.

Lemma registered_id (st : State) (name : string) (t : Target) :
  targets st !! name = Some t -> registered name t st = st.
Proof.
  intros Hreg. unfold registered. destruct st as [cr ts]; simpl in *.
  f_equal. by apply insert_id.
Qed.

(** On a valid unit not yet registered, [buildCommand] does what
    [Build] does one level of imports deeper, up to the point of
    linking: the package target is the same.  When that target has
    succeeded and the unit is a command, the two return the same linker
    target and the same state.  When it has failed, or the unit is no
    command, [Build] returns the package target and [buildCommand]
    still returns a linker target over it. *)
Theorem buildCommand_agrees_with_Build_on_built_commands
    (fuel : nat) (pkg : Package) (st st' : State) (l : Target) :
  pkg_Result pkg = None ->
  targets st !! compile_key pkg = None ->
  buildCommand fuel pkg st = Ok l st' ->
  exists id c st2,
    l = ld id pkg c
    /\ st' = grown st2 [l]
    /\ buildPackage (S fuel) pkg st = Ok c st2
    /\ (Target_Result c = None /\ pkg_isMain pkg = true ->
        Build (S fuel) pkg st = Ok l st')
    /\ (~ (Target_Result c = None /\ pkg_isMain pkg = true) ->
        Build (S fuel) pkg st = Ok c st2).
Proof.
  intros Hv Hreg Hrun. unfold buildCommand in Hrun.
  apply bind_inv in Hrun as (deps & st1 & Hdeps & Hrun).
  apply bind_inv in Hrun as (c & st2 & Hc & Hld).
  unfold Ld in Hld. rewrite alloc_eq in Hld. injection Hld as <- <-.
  destruct (Compile_registers pkg deps st1 st2 c Hv Hc) as [Hreg2 Hpt].
  assert (Hb : buildPackage (S fuel) pkg st = Ok c st2).
  { cbn [buildPackage]. rewrite Hv. unfold targetOrMissing.
    erewrite GetOrCreate_miss; [| done |].
    2:{ erewrite bind_Ok by exact Hdeps. exact Hc. }
    by rewrite registered_id. }
  eexists _, c, st2. split; [done |]. split; [done |]. split; [done |].
  unfold Build. erewrite bind_Ok by exact Hb. split.
  - intros [Hres Hmain]. rewrite Hres, Hmain.
    unfold assert_PkgTarget. rewrite Hpt.
    erewrite bind_Ok by reflexivity. unfold Ld. by rewrite alloc_eq.
  - intros Hnot. destruct (Target_Result c) as [err |]; [done |].
    destruct (pkg_isMain pkg); [| done]. by destruct Hnot.
Qed.

End CommandProperties.

(** ** Instances of the further properties *)

Lemma asm_Objfile_without_extension_witness :
  no_dot "Makefile" = true
  /\ @asm_Objfile Fixture.world Fixture.mixed "Makefile" = "/w/mixed/.6".
Proof.
  split; [reflexivity |].
  destruct (@asm_Objfile_without_extension Fixture.world Fixture.mixed
              "Makefile" eq_refl) as (_ & _ & Hobj).
  rewrite Hobj. reflexivity.
Defined.

Lemma compile_key_separates_scopes_witness :
  @compile_key Fixture.t <> @compile_key Fixture.util.
Proof.
  intros Hkey.
  destruct (proj1 (@compile_key_separates_scopes Fixture.t Fixture.util
                     eq_refl eq_refl) Hkey) as [Hscope _].
  discriminate Hscope.
Defined.

Lemma buildDependencies_prunes_stdlib_witness :
  @buildDependencies Fixture.world 3 ["fmt"; "fmt"] empty_State
  = Ok [] empty_State.
Proof.
  apply (proj2 (proj2 (@buildDependencies_prunes_stdlib Fixture.world 3
                         ["fmt"; "fmt"] empty_State))).
  repeat constructor; set_solver.
Defined.

Lemma self_import_never_returns_witness :
  @buildPackage Cycle.world 7 Cycle.loop empty_State = OutOfFuel.
Proof.
  apply (@self_import_never_returns Cycle.world Cycle.loop
           ["fmt"] [] "loop" empty_State eq_refl eq_refl eq_refl).
  - by repeat constructor.
  - simpl. intros Hin%elem_of_singleton. discriminate Hin.
  - reflexivity.
Defined.

Lemma Compile_panics_only_on_foreign_registry_entry_witness :
  @Compile Fixture.world Fixture.util []
    {| created := [asm 0 Fixture.util "a.s"];
       targets := {[ "compile::util" := asm 0 Fixture.util "a.s" ]} |}
  = Panic.
Proof.
  apply (proj1 (proj2 (@Compile_panics_only_on_foreign_registry_entry
                         Fixture.world Fixture.util [] _))).
  split; [reflexivity |].
  exists (asm 0 Fixture.util "a.s"). split; reflexivity.
Defined.

Lemma registry_final_empty : registry_final empty_State.
Proof. intros name t. simpl. by rewrite lookup_empty. Qed.

Lemma registry_holds_finished_artifacts_only_witness :
  exists t st',
    @buildCommand Fixture.world 0 Fixture.util empty_State = Ok t st'
    /\ registry_final st'.
Proof.
  eexists _, _. split; [reflexivity |].
  eapply (proj1 (@registry_holds_finished_artifacts_only Fixture.world 0
                   Fixture.util [] empty_State _ _ registry_final_empty)).
  right. right. left. reflexivity.
Defined.

Lemma archive_lists_compiled_object_first_witness :
  exists id objs a st',
    @Compile Fixture.world Fixture.mixed [] empty_State
    = Ok (install (S id) Fixture.mixed a) st'
    /\ a = pack id Fixture.mixed objs
    /\ List.map (@Target_Objfile Fixture.world) objs
       = ["/w/mixed.a"; "/w/mixed/fo.6"].
Proof.
  destruct (@archive_lists_compiled_object_first Fixture.world
              Fixture.mixed [] empty_State eq_refl eq_refl eq_refl eq_refl)
    as (id & objs & a & st' & Hc & Ha & Hfiles & _).
  exists id, objs, a, st'. split; [exact Hc |]. split; [exact Ha |].
  rewrite Hfiles. reflexivity.
Defined.

Lemma installed_artifact_is_the_package_file_witness :
  exists id a st',
    @Compile Fixture.world Fixture.twoasm [] empty_State
    = Ok (install id Fixture.twoasm a) st'
    /\ @Target_Pkgfile Fixture.world a = "/w/twoasm.a".
Proof.
  destruct (@installed_artifact_is_the_package_file Fixture.world
              Fixture.twoasm [] empty_State eq_refl eq_refl eq_refl)
    as (id & a & st' & Hc & Hfile & _).
  exists id, a, st'. split; [exact Hc |]. rewrite Hfile. reflexivity.
Defined.

Lemma fresh_unit_still_builds_its_dependencies_witness :
  exists st',
    @buildPackage Fixture.world 2 Fixture.lib empty_State
    = Ok (cached 2 Fixture.lib) st'
    /\ List.map is_gc (created st') = [true; false; false].
Proof.
  eexists. split.
  - eapply (@fresh_unit_still_builds_its_dependencies Fixture.world 1
             Fixture.lib empty_State _ _ eq_refl eq_refl eq_refl
             eq_refl eq_refl).
  - reflexivity.
Defined.

Lemma Build_links_again_witness :
  exists st1 t,
    @buildPackage Fixture.world 1 Fixture.t empty_State = Ok t st1
    /\ @Build Fixture.world 0 Fixture.t (grown st1 [ld 2 Fixture.t t])
       = Ok (ld 3 Fixture.t t)
            (grown st1 [ld 2 Fixture.t t; ld 3 Fixture.t t]).
Proof.
  eexists _, _. split; [reflexivity |].
  eapply (proj1 (proj2 (@Build_links_again Fixture.world 1 Fixture.t
                          empty_State _ _ eq_refl registry_ok_empty
                          eq_refl eq_refl eq_refl)) 0).
Defined.

Lemma Result_waits_for_the_producer_witness :
  exists c,
    @exec Fixture.world Fixture.objs_ok [CallResult; CallResult] Pack_cell
    = Some c
    /\ @step Fixture.world Fixture.objs_ok (Recv 1) c = None.
Proof.
  eexists. split; [reflexivity |].
  eapply (@Result_waits_for_the_producer Fixture.world Fixture.objs_ok
           [CallResult; CallResult] _).
  - intros Hin.
    repeat (apply elem_of_cons in Hin as [Hin | Hin]; [discriminate |]).
    by apply elem_of_nil in Hin.
  - reflexivity.
Defined.

Lemma Result_send_back_never_blocks_witness :
  exists c,
    @exec Fixture.world Fixture.objs_ok
      [CallResult; CallResult; Produce; Recv 1] Pack_cell = Some c
    /\ chan c = None
    /\ forall j err', callers c !! j = Some (AtSend err') -> j = 1.
Proof.
  eexists. split; [reflexivity |].
  destruct (@Result_send_back_never_blocks Fixture.world Fixture.objs_ok
              [CallResult; CallResult; Produce; Recv 1] _ 1 None
              eq_refl eq_refl) as (Hchan & _ & Honly & _).
  split; [exact Hchan | exact Honly].
Defined.

Lemma buildCommand_agrees_with_Build_on_built_commands_witness :
  exists l st',
    @buildCommand Fixture.world 0 Fixture.t empty_State = Ok l st'
    /\ @Build Fixture.world 1 Fixture.t empty_State = Ok l st'.
Proof.
  eexists _, _. split; [reflexivity |].
  destruct (@buildCommand_agrees_with_Build_on_built_commands Fixture.world
              0 Fixture.t empty_State _ _ eq_refl eq_refl eq_refl)
    as (id & c & st2 & Hl & Hst & Hb & Hyes & _).
  apply Hyes. injection Hl as _ <-. split; reflexivity.
Defined.
